(** * plot_memory_consumption.py: loading of sample files and plotting

    A shallow embedding of [memory_consumption/plot_memory_consumption.py].
    The script keeps two module-level lists [xs] and [ys], fills them with
    [read_memory_consuption] for four fixed file names and hands the four
    series to matplotlib.

    Text is a list of code points below 256 (the type [ascii]); the
    builtins [str.split], [int], [float] and the text-mode file object are
    modelled as the Python reference describes them on such text.  [float]
    values are IEEE binary64, as [spec_float] with [prec = 53] and
    [emax = 1024]. *)

From Stdlib Require Import List String Ascii ZArith NArith Lia Bool.
From Stdlib Require Import Floats.SpecFloat.
Import ListNotations.

Local Open Scope list_scope.

(** ** Text *)

Definition text := list ascii.

Definition txt (s : string) : text := list_ascii_of_string s.

Definition LF : ascii := ascii_of_nat 10.
Definition CR : ascii := ascii_of_nat 13.

(** [str.isspace] on one code point below 256: the characters
    [\t \n \x0b \x0c \r \x1c \x1d \x1e \x1f], the space, [\x85], [\xa0]. *)
Definition isspace (c : ascii) : bool :=
  let n := N_of_ascii c in
  (((9 <=? n) && (n <=? 13)) || ((28 <=? n) && (n <=? 32))
   || (n =? 133) || (n =? 160))%N.

(** [str.split()] without arguments: the maximal runs of characters that
    are not whitespace, in order.  [cur] is the run being read, reversed. *)
Fixpoint split_from (cur : text) (s : text) : list text :=
  match s with
  | [] => match cur with [] => [] | _ => [rev cur] end
  | c :: s' =>
      if isspace c then
        match cur with
        | [] => split_from [] s'
        | _ => rev cur :: split_from [] s'
        end
      else split_from (c :: cur) s'
  end.

Definition split (s : text) : list text := split_from [] s.

Fixpoint lstrip (s : text) : text :=
  match s with
  | c :: s' => if isspace c then lstrip s' else s
  | [] => []
  end.

Definition strip (s : text) : text := rev (lstrip (rev (lstrip s))).

(** ** Text-mode file objects *)

(** Universal newlines, the default of [open]: on reading, [\r\n] and a
    lone [\r] become [\n].  [after_cr] says that the previous character was
    a [\r], already delivered as [\n]. *)
Fixpoint universal_newlines (after_cr : bool) (s : text) : text :=
  match s with
  | [] => []
  | c :: s' =>
      if Ascii.eqb c CR then LF :: universal_newlines true s'
      else if Ascii.eqb c LF then
        if after_cr then universal_newlines false s'
        else LF :: universal_newlines false s'
      else c :: universal_newlines false s'
  end.

(** The lines of a text, each with its terminating [\n] (the last one may
    have none).  [cur] is the line being read, reversed. *)
Fixpoint lines_from (cur : text) (s : text) : list text :=
  match s with
  | [] => match cur with [] => [] | _ => [rev cur] end
  | c :: s' =>
      if Ascii.eqb c LF then rev (c :: cur) :: lines_from [] s'
      else lines_from (c :: cur) s'
  end.

Definition lines_of (s : text) : list text := lines_from [] s.

(** ** Numbers *)

Definition digit_val (c : ascii) : option N :=
  let n := N_of_ascii c in
  if ((48 <=? n) && (n <=? 57))%N then Some (n - 48)%N else None.

Definition underscore : ascii := ascii_of_nat 95.

(** The tail [(["_"] digit)*] of a [digitpart], read as far as it goes:
    the digits read and the text left. *)
Fixpoint digitpart_rest (s : text) : list N * text :=
  match s with
  | [] => ([], [])
  | c :: s' =>
      match digit_val c with
      | Some d => let (ds, r) := digitpart_rest s' in (d :: ds, r)
      | None =>
          if Ascii.eqb c underscore then
            match s' with
            | c2 :: s'' =>
                match digit_val c2 with
                | Some d => let (ds, r) := digitpart_rest s'' in (d :: ds, r)
                | None => ([], s)
                end
            | [] => ([], s)
            end
          else ([], s)
      end
  end.

(** [digitpart ::= digit (["_"] digit)*] at the head of [s]. *)
Definition digitpart (s : text) : option (list N * text) :=
  match s with
  | c :: s' =>
      match digit_val c with
      | Some d => let (ds, r) := digitpart_rest s' in Some (d :: ds, r)
      | None => None
      end
  | [] => None
  end.

Definition digits_value (ds : list N) : N :=
  fold_left (fun a d => (10 * a + d)%N) ds 0%N.

Definition plus_sign : ascii := ascii_of_nat 43.
Definition minus_sign : ascii := ascii_of_nat 45.

(** An optional sign: [true] for [-]. *)
Definition take_sign (s : text) : bool * text :=
  match s with
  | c :: s' =>
      if Ascii.eqb c minus_sign then (true, s')
      else if Ascii.eqb c plus_sign then (false, s')
      else (false, s)
  | [] => (false, [])
  end.

(** [int(s)] in base ten: surrounding whitespace, an optional sign and a
    [digitpart]; [None] stands for [ValueError].  Integers are unbounded;
    the limit an interpreter may be configured to put on the number of
    digits is not part of the model. *)
Definition int (s : text) : option Z :=
  let (neg, r) := take_sign (strip s) in
  match digitpart r with
  | Some (ds, []) =>
      let n := Z.of_N (digits_value ds) in
      Some (if neg then (- n)%Z else n)
  | _ => None
  end.

(** *** Floats *)

Definition float := spec_float.

Definition prec : Z := 53.
Definition emax : Z := 1024.

(** The binary64 number nearest to [(-1)^neg * m * 10^e], ties to even. *)
Definition round_decimal (neg : bool) (m : N) (e : Z) : float :=
  match m with
  | N0 => S754_zero neg
  | Npos p =>
      match e with
      | Zneg k =>
          SFdiv prec emax (S754_finite neg p 0)
                (S754_finite false (Pos.pow 10 k) 0)
      | _ => binary_round prec emax neg (p * Z.to_pos (10 ^ e))%positive 0
      end
  end.

Definition lower (c : ascii) : ascii :=
  let n := N_of_ascii c in
  if ((65 <=? n) && (n <=? 90))%N then ascii_of_N (n + 32) else c.

Definition dot : ascii := ascii_of_nat 46.
Definition letter_e : ascii := ascii_of_nat 101.

(** [floatnumber ::= number [exponent]] with
    [number ::= [digitpart] "." digitpart | digitpart ["."]] and
    [exponent ::= ("e" | "E") [sign] digitpart]: the decimal mantissa and
    the power of ten. *)
Definition floatnumber (s : text) : option (N * Z) :=
  let '(ip, r1) :=
    match digitpart s with Some (ds, r) => (ds, r) | None => ([], s) end in
  let '(fp, r2) :=
    match r1 with
    | c :: r =>
        if Ascii.eqb c dot then
          match digitpart r with
          | Some (fs, r') => (fs, r')
          | None => ([], r)
          end
        else ([], r1)
    | [] => ([], r1)
    end in
  let shaped := match ip, fp with [], [] => false | _, _ => true end in
  if shaped then
    let m := digits_value (ip ++ fp) in
    let scale := Z.of_nat (List.length fp) in
    match r2 with
    | [] => Some (m, (- scale)%Z)
    | c :: r =>
        if Ascii.eqb (lower c) letter_e then
          let (eneg, r') := take_sign r in
          match digitpart r' with
          | Some (es, []) =>
              let x := Z.of_N (digits_value es) in
              Some (m, ((if eneg then - x else x) - scale)%Z)
          | _ => None
          end
        else None
    end
  else None.

(** [float(s)]: surrounding whitespace, an optional sign, then [inf],
    [infinity] or [nan] in any case, or a [floatnumber]; [None] stands for
    [ValueError]. *)
Definition float_of_text (s : text) : option float :=
  let (neg, r) := take_sign (strip s) in
  let w := map lower r in
  if list_eq_dec ascii_dec w (txt "inf") then Some (S754_infinity neg)
  else if list_eq_dec ascii_dec w (txt "infinity") then Some (S754_infinity neg)
  else if list_eq_dec ascii_dec w (txt "nan") then Some S754_nan
  else
    match floatnumber r with
    | Some (m, e) => Some (round_decimal neg m e)
    | None => None
    end.

(** ** Interpreter state *)

(** A text-mode file object: what is left to read, newlines already
    translated.  The script never calls [close]: [f_closed] is set when the
    interpreter reclaims the object, see [call] below. *)
Record file_obj := mk_file {
  f_name : string;
  f_unread : text;
  f_closed : bool
}.

(** A line of the current pyplot figure. *)
Record line2d := mk_line {
  l_x : list Z;
  l_y : list float;
  l_label : string
}.

Record figure := mk_figure {
  fig_lines : list line2d;
  fig_legend : option (list string);
  fig_yticks : option (list Z)
}.

Definition empty_figure : figure := mk_figure [] None None.

(** The file system (a name that cannot be opened has no text), the module
    globals [xs] and [ys], the file objects created so far, the current
    figure and the figures displayed by [plt.show]. *)
Record state := mk_state {
  disk : string -> option text;
  xs : list (list Z);
  ys : list (list float);
  files : list file_obj;
  fig : figure;
  shown : list figure
}.

Definition initial (d : string -> option text) : state :=
  mk_state d [] [] [] empty_figure [].

Definition set_xs (v : list (list Z)) (s : state) : state :=
  mk_state (disk s) v (ys s) (files s) (fig s) (shown s).
Definition set_ys (v : list (list float)) (s : state) : state :=
  mk_state (disk s) (xs s) v (files s) (fig s) (shown s).
Definition set_files (v : list file_obj) (s : state) : state :=
  mk_state (disk s) (xs s) (ys s) v (fig s) (shown s).
Definition set_fig (v : figure) (s : state) : state :=
  mk_state (disk s) (xs s) (ys s) (files s) v (shown s).
Definition set_shown (v : list figure) (s : state) : state :=
  mk_state (disk s) (xs s) (ys s) (files s) (fig s) v.

Inductive exn := OSError | ValueError | IndexError.

Inductive result (A : Type) :=
| Ok (a : A)
| Raise (e : exn).
Arguments Ok {A} a.
Arguments Raise {A} e.

(** A computation returns or raises, and in both cases leaves a state: what
    was mutated before an exception stays mutated. *)
Definition M (A : Type) := state -> result A * state.

Definition ret {A} (a : A) : M A := fun s => (Ok a, s).
Definition raise {A} (e : exn) : M A := fun s => (Raise e, s).
Definition bind {A B} (m : M A) (k : A -> M B) : M B :=
  fun s =>
    match m s with
    | (Ok a, s') => k a s'
    | (Raise e, s') => (Raise e, s')
    end.

Declare Scope py_scope.
Delimit Scope py_scope with py.
Notation "x <- m ;; k" := (bind m (fun x => k))
  (at level 61, m at next level, right associativity) : py_scope.
Notation "m ;; k" := (bind m (fun _ => k))
  (at level 61, right associativity) : py_scope.
Local Open Scope py_scope.

(** [for v in l: body(v)] *)
Fixpoint for_each {A} (l : list A) (body : A -> M unit) : M unit :=
  match l with
  | [] => ret tt
  | a :: l' => body a ;; for_each l' body
  end.

Definition of_option {A} (e : exn) (o : option A) : M A :=
  match o with Some a => ret a | None => raise e end.

(** *** Builtins on the state *)

(** [open(file_name)]: a new file object, named by its index. *)
Definition open (file_name : string) : M nat :=
  fun s =>
    match disk s file_name with
    | Some t =>
        (Ok (List.length (files s)),
         set_files
           (files s ++ [mk_file file_name (universal_newlines false t) false])
           s)
    | None => (Raise OSError, s)
    end.

Fixpoint update {A} (l : list A) (i : nat) (v : A) : list A :=
  match l, i with
  | [], _ => []
  | _ :: l', O => v :: l'
  | a :: l', S j => a :: update l' j v
  end.

(** [f.readlines()]: all the lines left, leaving nothing to read. *)
Definition readlines (f : nat) : M (list text) :=
  fun s =>
    match nth_error (files s) f with
    | Some o =>
        if f_closed o then (Raise ValueError, s)
        else
          (Ok (lines_of (f_unread o)),
           set_files (update (files s) f (mk_file (f_name o) [] false)) s)
    | None => (Raise ValueError, s)
    end.

(** [l[-1]] *)
Definition last_item {A} (l : list A) : option A :=
  match rev l with
  | a :: _ => Some a
  | [] => None
  end.

(** [l[-1].append(v)] on a list of lists, once [l[-1]] is known to exist. *)
Definition append_last {A} (l : list (list A)) (v : A) : list (list A) :=
  match rev l with
  | a :: front => rev front ++ [a ++ [v]]
  | [] => []
  end.

(** [xs.append([])] and [ys.append([])] *)
Definition xs_append_new : M unit :=
  fun s => (Ok tt, set_xs (xs s ++ [[]]) s).
Definition ys_append_new : M unit :=
  fun s => (Ok tt, set_ys (ys s ++ [[]]) s).

(** [xs[-1].append(arg)]: the list [xs[-1]] is looked up first, then the
    argument is evaluated, then the value is appended. *)
Definition xs_last_append (arg : M Z) : M unit :=
  _ <- (fun s => of_option IndexError (last_item (xs s)) s) ;;
  v <- arg ;;
  fun s => (Ok tt, set_xs (append_last (xs s) v) s).

Definition ys_last_append (arg : M float) : M unit :=
  _ <- (fun s => of_option IndexError (last_item (ys s)) s) ;;
  v <- arg ;;
  fun s => (Ok tt, set_ys (append_last (ys s) v) s).

(** [x , y = tokens]: exactly two values, or [ValueError]. *)
Definition unpack2 (tokens : list text) : M (text * text) :=
  match tokens with
  | [x; y] => ret (x, y)
  | _ => raise ValueError
  end.

(** ** The script *)

(** The body of [for line in f.readlines()]. *)
Definition read_line (line : text) : M unit :=
  p <- unpack2 (split line) ;;
  xs_last_append (of_option ValueError (int (fst p))) ;;
  ys_last_append (of_option ValueError (float_of_text (snd p))).

(** The body of the function.  How the call is left, and what becomes of
    the local [f] then, is [call] below. *)
Definition read_memory_consuption (file_name : string) : M unit :=
  f <- open file_name ;;
  xs_append_new ;;
  ys_append_new ;;
  ls <- readlines f ;;
  for_each ls read_line.

Definition names : list string :=
  ["LongLongHashMapMemory"; "HashMapMemory"; "HashtableMemory";
   "TreeMapMemory"]%string.

Definition labels : list string :=
  ["LongLongMap"; "HashMap"; "Hashtable"; "TreeMap"]%string.

(** *** pyplot *)

(** [plt.plot(xs[i], ys[i], label=l)]: both subscripts are evaluated, then
    matplotlib refuses data of different lengths and otherwise adds the line
    to the current figure; empty data is accepted. *)
Definition plot (i : nat) (l : string) : M unit :=
  x <- (fun s => of_option IndexError (nth_error (xs s) i) s) ;;
  y <- (fun s => of_option IndexError (nth_error (ys s) i) s) ;;
  if Nat.eqb (List.length x) (List.length y) then
    fun s =>
      (Ok tt,
       set_fig (mk_figure (fig_lines (fig s) ++ [mk_line x y l])
                          (fig_legend (fig s)) (fig_yticks (fig s))) s)
  else raise ValueError.

(** [plt.legend()]: an entry for each line drawn so far. *)
Definition legend : M unit :=
  fun s =>
    (Ok tt,
     set_fig (mk_figure (fig_lines (fig s))
                        (Some (map l_label (fig_lines (fig s))))
                        (fig_yticks (fig s))) s).

(** [range(n)] *)
Definition range (n : nat) : list Z := map Z.of_nat (seq 0 n).

(** [plt.yticks(ticks)] *)
Definition yticks (ticks : list Z) : M unit :=
  fun s =>
    (Ok tt,
     set_fig (mk_figure (fig_lines (fig s)) (fig_legend (fig s))
                        (Some ticks)) s).

(** [plt.show()] *)
Definition show : M unit :=
  fun s => (Ok tt, set_shown (shown s ++ [fig s]) s).

(** The four [plt.plot] calls and what follows them. *)
Definition render : M unit :=
  plot 0 "LongLongMap" ;;
  plot 1 "HashMap" ;;
  plot 2 "Hashtable" ;;
  plot 3 "TreeMap" ;;
  legend ;;
  yticks (range 8) ;;
  show.

(** *** Leaving a call *)

(** CPython reclaims an object when the last reference to it goes, and a
    file object is closed then.  The file object a call of
    [read_memory_consuption] makes is referred to by the local [f] alone:
    it is closed when the call returns and its frame is dropped.  When the
    call raises, the traceback keeps the frame, and with it [f], alive: the
    file object stays open while the exception propagates. *)
Definition reclaim (o : file_obj) : file_obj :=
  mk_file (f_name o) (f_unread o) true.

(** The file objects made since there were [k] of them are reclaimed. *)
Definition reclaim_from (k : nat) (fl : list file_obj) : list file_obj :=
  firstn k fl ++ map reclaim (skipn k fl).

Definition call {A} (body : M A) : M A :=
  fun s =>
    match body s with
    | (Ok a, s') =>
        (Ok a,
         set_files (reclaim_from (List.length (files s)) (files s')) s')
    | (Raise e, s') => (Raise e, s')
    end.

(** [for name in [...]: read_memory_consuption(name)] *)
Definition load_all : M unit :=
  for_each names (fun name => call (read_memory_consuption name)).

(** The module body, run from a fresh interpreter. *)
Definition main : M unit := load_all ;; render.

(** ** Writing a sample file *)

Definition digit_char (d : N) : ascii := ascii_of_N (48 + d).

(** The decimal digits of [n], most significant first, in front of [acc]. *)
Fixpoint digits_of_fuel (fuel : nat) (n : N) (acc : list N) : list N :=
  match fuel with
  | O => acc
  | S k =>
      let acc' := (n mod 10)%N :: acc in
      if (n / 10 =? 0)%N then acc' else digits_of_fuel k (n / 10)%N acc'
  end.

Definition digits_of (n : N) : list N :=
  digits_of_fuel (S (N.to_nat (N.log2 n))) n [].

Definition str_of_N (n : N) : text := map digit_char (digits_of n).

(** [str(x)] of an integer. *)
Definition str_of_int (x : Z) : text :=
  match x with
  | Zneg p => minus_sign :: str_of_N (Npos p)
  | _ => str_of_N (Z.to_N x)
  end.

(** Modelled from the spec: the input file format, one pair per line as
    [<integer><whitespace><float>]; the repository has no writer, the files
    come from a benchmarking harness outside it.  The integer is written in
    decimal, [sep] is the whitespace and [repr] the rendering of floats. *)
Definition format_line (sep : text) (repr : float -> text)
    (p : Z * float) : text :=
  str_of_int (fst p) ++ sep ++ repr (snd p) ++ [LF].

Definition write_series (sep : text) (repr : float -> text)
    (series : list (Z * float)) : text :=
  List.concat (map (format_line sep repr) series).

(** ** Vocabulary of the statements *)

(** The lines [f.readlines()] yields for a file holding [t]. *)
Definition file_lines (t : text) : list text :=
  lines_of (universal_newlines false t).

(** A line made of exactly an integer token and a float token, with the
    pair it stands for. *)
Definition line_denotes (line : text) (p : Z * float) : Prop :=
  exists tx ty,
    split line = [tx; ty] /\ int tx = Some (fst p)
    /\ float_of_text ty = Some (snd p).

(** An empty line: nothing but whitespace, the line terminator included. *)
Definition blank (line : text) : Prop := split line = [].

(** The lines on which the loop body raises. *)
Definition fails_line (line : text) : Prop :=
  match split line with
  | [tx; ty] => int tx = None \/ float_of_text ty = None
  | _ => True
  end.

(** A line that is not empty and has not exactly two tokens, or whose
    first token is no integer, or whose second token is no float. *)
Definition malformed (line : text) : Prop :=
  ~ blank line /\ fails_line line.

(** What the failing line leaves in [xs[-1]]: its integer, when only the
    float failed to parse. *)
Definition pending_x (line : text) : list Z :=
  match split line with
  | [tx; ty] =>
      match int tx, float_of_text ty with
      | Some x, None => [x]
      | _, _ => []
      end
  | _ => []
  end.

(** A token: not empty and free of whitespace. *)
Definition token (t : text) : Prop :=
  t <> [] /\ Forall (fun c => isspace c = false) t.

(** Whitespace that stays within a line. *)
Definition inline_space (sep : text) : Prop :=
  sep <> []
  /\ Forall (fun c => isspace c = true /\ c <> LF /\ c <> CR) sep.

Definition disk_of (l : list (string * text)) (n : string) : option text :=
  option_map snd (find (fun p => String.eqb (fst p) n) l).

(** The end-to-end scenario: the four files hold the same two lines. *)
Definition two_lines : text := txt "1 2.5" ++ [LF] ++ txt "2 3.75" ++ [LF].
Definition four_files : string -> option text :=
  disk_of (map (fun n => (n, two_lines)) names).

(** The state in which the loop starts: both accumulators have their new,
    empty series and the file has been read to its end. *)
Definition opened (file_name : string) (s : state) : state :=
  set_files (files s ++ [mk_file file_name [] false])
    (set_ys (ys s ++ [[]]) (set_xs (xs s ++ [[]]) s)).

(** The state after the loop, from a state whose last series hold [cx] and
    [cy]. *)
Definition after_lines (X : list (list Z)) (cx : list Z)
    (Y : list (list float)) (cy : list float) (s : state) : state :=
  set_ys (Y ++ [cy]) (set_xs (X ++ [cx]) s).

(** The state in which the body of the function ends when the file can be
    opened, normally or on a line that raises: the new series hold [nx] and
    [ny], the file has been read to its end and its object is still open. *)
Definition loaded (file_name : string) (nx : list Z) (ny : list float)
    (s : state) : state :=
  mk_state (disk s) (xs s ++ [nx]) (ys s ++ [ny])
    (files s ++ [mk_file file_name [] false]) (fig s) (shown s).

(** A rendering of floats that loses nothing: the exact decimal value of
    a finite float, as an integer when the float is one and with a negative
    power of ten otherwise. *)
Definition exact_repr (y : float) : text :=
  match y with
  | S754_zero neg => (if neg then [minus_sign] else []) ++ txt "0.0"
  | S754_infinity neg => (if neg then [minus_sign] else []) ++ txt "inf"
  | S754_nan => txt "nan"
  | S754_finite neg m e =>
      (if neg then [minus_sign] else [])
      ++ match e with
         | Zneg k =>
             str_of_N (Npos (m * Pos.pow 5 k)) ++ txt "e-"
             ++ str_of_N (Npos k)
         | Z0 => str_of_N (Npos m)
         | Zpos k => str_of_N (Npos (m * Pos.pow 2 k))
         end
  end.


(** The figure [render] displays: the lines [ls] added to those of [old],
    a legend entry for each line, and the ticks [0] to [7] on the y axis. *)
Definition chart (old : figure) (ls : list line2d) : figure :=
  mk_figure (fig_lines old ++ ls)
            (Some (map l_label (fig_lines old ++ ls)))
            (Some [0; 1; 2; 3; 4; 5; 6; 7]%Z).

(** The line drawn for a series under a label. *)
Definition line_of (sr : list (Z * float)) (l : string) : line2d :=
  mk_line (map fst sr) (map snd sr) l.

(** *** Sample inputs *)

Definition one_file (t : text) : state :=
  initial (disk_of [("samples"%string, t)]).

Definition f2_5 : float := S754_finite false 5629499534213120 (-51).
Definition f3_75 : float := S754_finite false 8444249301319680 (-51).

(** [1 2.5], an empty line, [2 3.75]. *)
Definition blank_line_file : text :=
  txt "1 2.5" ++ [LF] ++ [LF] ++ txt "2 3.75" ++ [LF].

(** [1 2.5], then a line whose second token is no float. *)
Definition bad_float_file : text :=
  txt "1 2.5" ++ [LF] ++ txt "2 abc" ++ [LF].

(** The two pairs of [two_lines], and the file written from them. *)
Definition sample_series : list (Z * float) := [(1%Z, f2_5); (2%Z, f3_75)].
Definition written_file : text :=
  write_series (txt " ") exact_repr sample_series.

(** The first file is fine, the float of the second does not parse. *)
Definition second_bad : string -> option text :=
  disk_of [("LongLongHashMapMemory"%string, two_lines);
           ("HashMapMemory"%string, bad_float_file)].

(** Four files without a line. *)
Definition empty_files : string -> option text :=
  disk_of (map (fun n => (n, [])) names).

(** ** Vocabulary of the further properties *)

(** The file [n] of the file system [d] can be opened and each of its
    lines is well formed; [sr] is the series it holds. *)
Definition loads (d : string -> option text) (n : string)
    (sr : list (Z * float)) : Prop :=
  exists t, d n = Some t /\ Forall2 line_denotes (file_lines t) sr.

(** The state after the files [l] have been loaded from [s], one after the
    other, with the series [series]. *)
Definition after_files (l : list string) (series : list (list (Z * float)))
    (s : state) : state :=
  mk_state (disk s) (xs s ++ map (map fst) series)
    (ys s ++ map (map snd) series)
    (files s ++ map (fun n => mk_file n [] false) l) (fig s) (shown s).

(** The state a call that returned leaves: as [loaded], the file object
    closed. *)
Definition returned (file_name : string) (nx : list Z) (ny : list float)
    (s : state) : state :=
  mk_state (disk s) (xs s ++ [nx]) (ys s ++ [ny])
    (files s ++ [mk_file file_name [] true]) (fig s) (shown s).

(** The state after calls for the files [l] have returned, one after the
    other, with the series [series]. *)
Definition after_calls (l : list string) (series : list (list (Z * float)))
    (s : state) : state :=
  mk_state (disk s) (xs s ++ map (map fst) series)
    (ys s ++ map (map snd) series)
    (files s ++ map (fun n => mk_file n [] true) l) (fig s) (shown s).

(** An x series keeps step with its y series: as many values, or one more. *)
Definition aligned (x : list Z) (y : list float) : Prop :=
  List.length x = List.length y \/ List.length x = S (List.length y).

(** The text [t] with each [\n] written as [eol]. *)
Definition with_eol (eol : text) (t : text) : text :=
  flat_map (fun c => if Ascii.eqb c LF then eol else [c]) t.

(** The first file is there, the second is missing. *)
Definition second_missing : string -> option text :=
  disk_of [("LongLongHashMapMemory"%string, two_lines)].

(** Two lines with the same tokens. *)
Definition same_tokens (l1 l2 : text) : Prop := split l1 = split l2.

(** The line [tx ty] laid out with the whitespace [ws0] before, [ws1]
    between and [ws2] after the tokens. *)
Definition laid_out (ws0 tx ws1 ty ws2 : text) : text :=
  ws0 ++ tx ++ ws1 ++ ty ++ ws2.

Definition whitespace (ws : text) : Prop :=
  Forall (fun c => isspace c = true) ws.

(** The characters an integer literal is made of: digits, the underscore
    and the two signs. *)
Definition integer_char (c : ascii) : Prop :=
  digit_val c <> None \/ c = underscore \/ c = plus_sign \/ c = minus_sign.

(** Four files written from the sample series. *)
Definition four_written : string -> option text :=
  disk_of (map (fun n => (n, written_file)) names).

(** Case analysis on a number below ten. *)
Ltac small_digit d :=
  let p := fresh "p" in
  destruct d as [|p]; [|do 4 (try destruct p as [p|p|])]; try lia.

(** * Properties *)

(** ** The loop over the lines *)

Lemma last_item_app {A} (l : list A) (a : A) : last_item (l ++ [a]) = Some a.
Proof. unfold last_item. now rewrite rev_app_distr. Qed.

Lemma append_last_app {A} (l : list (list A)) (a : list A) (v : A) :
  append_last (l ++ [a]) v = l ++ [a ++ [v]].
Proof.
  unfold append_last. rewrite rev_app_distr. simpl. now rewrite rev_involutive.
Qed.

Lemma read_line_ok line p s X cx Y cy :
  xs s = X ++ [cx] -> ys s = Y ++ [cy] -> line_denotes line p ->
  read_line line s
  = (Ok tt, set_ys (Y ++ [cy ++ [snd p]]) (set_xs (X ++ [cx ++ [fst p]]) s)).
Proof.
  intros Hx Hy (tx & ty & Hs & Hi & Hf).
  unfold read_line, bind, xs_last_append, ys_last_append, bind, of_option.
  rewrite Hs. cbn [unpack2 ret fst snd].
  rewrite Hx, last_item_app, Hi. cbn [ret set_xs ys xs].
  rewrite Hy, last_item_app, Hf. cbn [ret ys set_xs].
  now rewrite Hx, Hy, !append_last_app.
Qed.

Lemma set_xs_same s v : xs s = v -> set_xs v s = s.
Proof. intros <-. now destruct s. Qed.

Lemma set_ys_same s v : ys s = v -> set_ys v s = s.
Proof. intros <-. now destruct s. Qed.

Lemma read_line_fails line s X cx Y cy :
  xs s = X ++ [cx] -> ys s = Y ++ [cy] -> fails_line line ->
  read_line line s
  = (Raise ValueError, set_xs (X ++ [cx ++ pending_x line]) s).
Proof.
  intros Hx Hy Hf. unfold fails_line in Hf. unfold pending_x.
  assert (Hsame : set_xs (X ++ [cx ++ []]) s = s)
    by (apply set_xs_same; now rewrite app_nil_r).
  unfold read_line, bind, xs_last_append, ys_last_append, bind, of_option.
  destruct (split line) as [|tx [|ty [|tz r]]]; cbn [unpack2 ret raise];
    try (now rewrite Hsame).
  cbn [fst snd]. rewrite Hx, last_item_app. cbn [ret].
  destruct (int tx) as [x|] eqn:Hi; cbn [ret raise].
  - destruct Hf as [Hf|Hf]; [discriminate|]. rewrite Hf.
    cbn [set_xs ys]. rewrite Hy, last_item_app. cbn [ret raise].
    now rewrite Hx, append_last_app.
  - now rewrite Hsame.
Qed.

(** A line either stands for a pair or makes the loop body raise. *)
Lemma line_denotes_or_fails line :
  (exists p, line_denotes line p) \/ fails_line line.
Proof.
  unfold line_denotes, fails_line.
  destruct (split line) as [|tx [|ty [|tz r]]]; auto.
  destruct (int tx) as [x|] eqn:Hi; auto.
  destruct (float_of_text ty) as [y|] eqn:Hf; auto.
  left. exists (x, y), tx, ty. auto.
Qed.

Lemma line_denotes_not_fails line p :
  line_denotes line p -> ~ fails_line line.
Proof.
  intros (tx & ty & Hs & Hi & Hf) H. unfold fails_line in H.
  rewrite Hs in H. destruct H as [H|H]; congruence.
Qed.

(** The lines of a file are all well formed, or there is a first line on
    which the loop body raises. *)
Lemma lines_classify (ls : list text) :
  (exists series, Forall2 line_denotes ls series)
  \/ (exists before bad after series,
        ls = before ++ bad :: after
        /\ Forall2 line_denotes before series /\ fails_line bad).
Proof.
  induction ls as [|l ls IH].
  - left. exists []. constructor.
  - destruct (line_denotes_or_fails l) as [[p Hp]|Hbad].
    + destruct IH as [[series Hs]|(before & bad & after & series & E & Hs & Hb)].
      * left. exists (p :: series). now constructor.
      * right. exists (l :: before), bad, after, (p :: series).
        subst ls. repeat split; auto.
    + right. exists [], l, ls, []. repeat split; auto.
Qed.

Lemma after_lines_twice X cx cx' Y cy cy' s :
  after_lines X cx' Y cy' (after_lines X cx Y cy s) = after_lines X cx' Y cy' s.
Proof. reflexivity. Qed.

Lemma loop_ok ls : forall series s X cx Y cy,
  xs s = X ++ [cx] -> ys s = Y ++ [cy] ->
  Forall2 line_denotes ls series ->
  for_each ls read_line s
  = (Ok tt, after_lines X (cx ++ map fst series) Y (cy ++ map snd series) s).
Proof.
  induction ls as [|l ls IH]; intros series s X cx Y cy Hx Hy H;
    inversion H as [|? p ? rest Hp Hrest]; subst.
  - cbn. unfold after_lines. rewrite !app_nil_r.
    now rewrite (set_xs_same s), (set_ys_same s).
  - cbn [for_each]. unfold bind at 1.
    rewrite (read_line_ok l p s X cx Y cy Hx Hy Hp).
    fold (after_lines X (cx ++ [fst p]) Y (cy ++ [snd p]) s).
    rewrite (IH rest _ X (cx ++ [fst p]) Y (cy ++ [snd p]));
      [|reflexivity|reflexivity|assumption].
    rewrite after_lines_twice. cbn [map]. now rewrite <- !app_assoc.
Qed.

Lemma loop_fails before bad after series s X cx Y cy :
  xs s = X ++ [cx] -> ys s = Y ++ [cy] ->
  Forall2 line_denotes before series -> fails_line bad ->
  for_each (before ++ bad :: after) read_line s
  = (Raise ValueError,
     after_lines X (cx ++ map fst series ++ pending_x bad) Y
       (cy ++ map snd series) s).
Proof.
  intros Hx Hy H Hbad. revert s cx cy Hx Hy.
  induction H as [|l p before series Hp _ IH]; intros s cx cy Hx Hy.
  - cbn [app for_each map]. unfold bind.
    rewrite (read_line_fails bad s X cx Y cy Hx Hy Hbad).
    unfold after_lines. rewrite app_nil_r.
    now rewrite (set_ys_same (set_xs _ s)).
  - cbn [app for_each]. unfold bind at 1.
    rewrite (read_line_ok l p s X cx Y cy Hx Hy Hp).
    fold (after_lines X (cx ++ [fst p]) Y (cy ++ [snd p]) s).
    rewrite (IH _ (cx ++ [fst p]) (cy ++ [snd p])); [|reflexivity|reflexivity].
    rewrite after_lines_twice. cbn [map]. now rewrite <- !app_assoc.
Qed.

(** ** One call of [read_memory_consuption] *)

Lemma nth_error_snoc {A} (l : list A) (a : A) :
  nth_error (l ++ [a]) (List.length l) = Some a.
Proof. induction l; simpl; auto. Qed.

Lemma update_snoc {A} (l : list A) (a b : A) :
  update (l ++ [a]) (List.length l) b = l ++ [b].
Proof. induction l; simpl; congruence. Qed.

Lemma read_unfold file_name t s :
  disk s file_name = Some t ->
  read_memory_consuption file_name s
  = for_each (file_lines t) read_line (opened file_name s).
Proof.
  intros Hd. unfold read_memory_consuption, bind, open.
  rewrite Hd. unfold xs_append_new, ys_append_new, readlines.
  cbn [files set_files set_xs set_ys].
  rewrite nth_error_snoc. cbn [f_closed f_unread f_name].
  now rewrite update_snoc.
Qed.

Lemma read_missing file_name s :
  disk s file_name = None ->
  read_memory_consuption file_name s = (Raise OSError, s).
Proof.
  intros Hd. unfold read_memory_consuption, bind, open. now rewrite Hd.
Qed.

Lemma read_well_formed file_name t series s :
  disk s file_name = Some t ->
  Forall2 line_denotes (file_lines t) series ->
  read_memory_consuption file_name s
  = (Ok tt, loaded file_name (map fst series) (map snd series) s).
Proof.
  intros Hd H. rewrite (read_unfold _ _ _ Hd).
  now rewrite (loop_ok _ series _ (xs s) [] (ys s) []).
Qed.

Lemma read_first_failure file_name t before bad after series s :
  disk s file_name = Some t ->
  file_lines t = before ++ bad :: after ->
  Forall2 line_denotes before series -> fails_line bad ->
  read_memory_consuption file_name s
  = (Raise ValueError,
     loaded file_name (map fst series ++ pending_x bad) (map snd series) s).
Proof.
  intros Hd E H Hbad. rewrite (read_unfold _ _ _ Hd), E.
  now rewrite (loop_fails _ _ _ series _ (xs s) [] (ys s) []).
Qed.

(** ** Text: lines, tokens and numerals *)

Lemma universal_newlines_id t :
  Forall (fun c => c <> CR) t -> universal_newlines false t = t.
Proof.
  induction 1 as [|c t Hc _ IH]; [reflexivity|].
  cbn [universal_newlines].
  apply Ascii.eqb_neq in Hc. rewrite Hc.
  destruct (Ascii.eqb c LF) eqn:E.
  - apply Ascii.eqb_eq in E. subst c. now rewrite IH.
  - now rewrite IH.
Qed.

Lemma lines_from_line l : forall cur rest,
  Forall (fun c => c <> LF) l ->
  lines_from cur (l ++ LF :: rest)
  = (rev cur ++ l ++ [LF]) :: lines_from [] rest.
Proof.
  induction l as [|c l IH]; intros cur rest H.
  - cbn [app lines_from]. now rewrite Ascii.eqb_refl.
  - inversion H as [|? ? Hc Hl]; subst.
    cbn [app lines_from]. apply Ascii.eqb_neq in Hc. rewrite Hc.
    rewrite (IH _ _ Hl). cbn [rev]. now rewrite <- app_assoc.
Qed.

Lemma split_from_token t : forall cur r,
  Forall (fun c => isspace c = false) t ->
  split_from cur (t ++ r) = split_from (rev t ++ cur) r.
Proof.
  induction t as [|c t IH]; intros cur r H; [reflexivity|].
  inversion H as [|? ? Hc Ht]; subst.
  cbn [app split_from]. rewrite Hc, (IH _ _ Ht).
  cbn [rev]. now rewrite <- app_assoc.
Qed.

Lemma split_from_spaces sp r :
  Forall (fun c => isspace c = true) sp ->
  split_from [] (sp ++ r) = split_from [] r.
Proof.
  induction 1 as [|c sp Hc _ IH]; [reflexivity|].
  cbn [app split_from]. now rewrite Hc.
Qed.

Lemma split_from_run cur c sp r :
  cur <> [] -> isspace c = true -> Forall (fun c => isspace c = true) sp ->
  split_from cur (c :: sp ++ r) = rev cur :: split_from [] r.
Proof.
  intros Hcur Hc Hsp. cbn [split_from]. rewrite Hc.
  destruct cur; [congruence|]. now rewrite split_from_spaces.
Qed.

Lemma rev_not_nil {A} (l : list A) : l <> [] -> rev l <> [].
Proof.
  destruct l; [congruence|]. intros _ E. apply (f_equal (@List.length A)) in E.
  cbn [rev] in E. rewrite length_app in E. cbn in E. lia.
Qed.

Lemma isspace_LF : isspace LF = true.
Proof. reflexivity. Qed.

Lemma split_two tx sep ty :
  token tx -> token ty -> sep <> [] ->
  Forall (fun c => isspace c = true) sep ->
  split (tx ++ sep ++ ty ++ [LF]) = [tx; ty].
Proof.
  intros [Nx Hx] [Ny Hy] Ns Hs. unfold split.
  rewrite (split_from_token _ _ _ Hx), app_nil_r.
  destruct sep as [|c sp]; [congruence|].
  inversion Hs as [|? ? Hc Hsp]; subst.
  cbn [app]. rewrite (split_from_run _ _ _ _ (rev_not_nil _ Nx) Hc Hsp).
  rewrite rev_involutive. f_equal.
  rewrite (split_from_token _ _ _ Hy), app_nil_r.
  change [LF] with (LF :: [] ++ []).
  rewrite (split_from_run _ _ _ _ (rev_not_nil _ Ny) isspace_LF (Forall_nil _)).
  now rewrite rev_involutive.
Qed.

Lemma lstrip_token t : token t -> lstrip t = t.
Proof.
  intros [N H]. destruct t as [|c t]; [congruence|].
  inversion H as [|? ? Hc _]; subst. cbn [lstrip]. now rewrite Hc.
Qed.

Lemma token_rev t : token t -> token (rev t).
Proof.
  intros [N H]. split; [now apply rev_not_nil|]. now apply Forall_rev.
Qed.

Lemma strip_token t : token t -> strip t = t.
Proof.
  intros H. unfold strip.
  rewrite (lstrip_token _ H), (lstrip_token _ (token_rev _ H)).
  apply rev_involutive.
Qed.

Lemma token_no_newline t :
  token t -> Forall (fun c => c <> LF /\ c <> CR) t.
Proof.
  intros [_ H]. eapply Forall_impl; [|exact H].
  intros c Hc. split; intros ->; discriminate.
Qed.

(** *** Decimal numerals *)

Lemma digit_val_char d : (d < 10)%N -> digit_val (digit_char d) = Some d.
Proof. intros H. small_digit d; reflexivity. Qed.

Lemma digit_char_plain d :
  (d < 10)%N ->
  isspace (digit_char d) = false
  /\ Ascii.eqb (digit_char d) minus_sign = false
  /\ Ascii.eqb (digit_char d) plus_sign = false.
Proof. intros H. small_digit d; repeat split; reflexivity. Qed.

Lemma digitpart_rest_digits ds :
  Forall (fun d => (d < 10)%N) ds ->
  digitpart_rest (map digit_char ds) = (ds, []).
Proof.
  induction 1 as [|d ds Hd _ IH]; [reflexivity|].
  cbn [map digitpart_rest]. now rewrite (digit_val_char _ Hd), IH.
Qed.

Lemma digitpart_digits ds :
  ds <> [] -> Forall (fun d => (d < 10)%N) ds ->
  digitpart (map digit_char ds) = Some (ds, []).
Proof.
  intros N H. destruct ds as [|d ds]; [congruence|].
  inversion H as [|? ? Hd Hds]; subst.
  cbn [map digitpart].
  now rewrite (digit_val_char _ Hd), (digitpart_rest_digits _ Hds).
Qed.

Lemma digits_of_fuel_small fuel : forall n acc,
  Forall (fun d => (d < 10)%N) acc ->
  Forall (fun d => (d < 10)%N) (digits_of_fuel fuel n acc).
Proof.
  induction fuel as [|k IH]; intros n acc H; [exact H|].
  cbn [digits_of_fuel].
  assert (H' : Forall (fun d => (d < 10)%N) ((n mod 10)%N :: acc)).
  { constructor; [|exact H]. apply N.mod_lt. discriminate. }
  destruct (n / 10 =? 0)%N; [exact H'|now apply IH].
Qed.

Lemma digits_of_fuel_length fuel : forall n acc,
  List.length acc <= List.length (digits_of_fuel fuel n acc).
Proof.
  induction fuel as [|k IH]; intros n acc; [apply le_n|].
  cbn [digits_of_fuel].
  destruct (n / 10 =? 0)%N.
  - cbn. lia.
  - specialize (IH (n / 10)%N ((n mod 10)%N :: acc)). cbn in IH. lia.
Qed.

Lemma digits_of_fuel_value fuel : forall n acc,
  (n < 10 ^ N.of_nat fuel)%N ->
  fold_left (fun a d => (10 * a + d)%N) (digits_of_fuel fuel n acc) 0%N
  = fold_left (fun a d => (10 * a + d)%N) acc n.
Proof.
  induction fuel as [|k IH]; intros n acc H.
  - cbn in H. assert (n = 0%N) by lia. now subst.
  - cbn [digits_of_fuel].
    assert (E : n = (10 * (n / 10) + n mod 10)%N)
      by (apply N.div_mod; discriminate).
    destruct (n / 10 =? 0)%N eqn:Q.
    + apply N.eqb_eq in Q. cbn [fold_left]. f_equal. lia.
    + rewrite IH.
      * cbn [fold_left]. now rewrite <- E.
      * apply N.Div0.div_lt_upper_bound.
        rewrite Nat2N.inj_succ, N.pow_succ_r' in H. exact H.
Qed.

Lemma fuel_enough n : (n < 10 ^ N.of_nat (S (N.to_nat (N.log2 n))))%N.
Proof.
  rewrite Nat2N.inj_succ, N2Nat.id.
  apply N.lt_le_trans with (2 ^ N.succ (N.log2 n))%N.
  - destruct n as [|p]; [reflexivity|]. apply N.log2_spec. reflexivity.
  - apply N.pow_le_mono_l. lia.
Qed.

Lemma digits_of_small n : Forall (fun d => (d < 10)%N) (digits_of n).
Proof. apply digits_of_fuel_small. constructor. Qed.

Lemma digits_of_not_nil n : digits_of n <> [].
Proof.
  unfold digits_of. cbn [digits_of_fuel].
  destruct (n / 10 =? 0)%N; [discriminate|].
  intros E.
  pose proof (digits_of_fuel_length (N.to_nat (N.log2 n)) (n / 10)%N
                [(n mod 10)%N]) as L.
  rewrite E in L. cbn in L. lia.
Qed.

Lemma digits_of_value n : digits_value (digits_of n) = n.
Proof.
  unfold digits_value, digits_of.
  now rewrite (digits_of_fuel_value _ _ _ (fuel_enough n)).
Qed.

Lemma str_of_N_token n : token (str_of_N n).
Proof.
  split.
  - unfold str_of_N. intros E. apply map_eq_nil in E.
    now apply digits_of_not_nil in E.
  - unfold str_of_N. apply Forall_map.
    eapply Forall_impl; [|apply digits_of_small].
    intros d Hd. now apply digit_char_plain.
Qed.

Lemma take_sign_str_of_N n : take_sign (str_of_N n) = (false, str_of_N n).
Proof.
  unfold str_of_N.
  pose proof (digits_of_not_nil n) as N. pose proof (digits_of_small n) as H.
  destruct (digits_of n) as [|d ds]; [congruence|].
  inversion H as [|? ? Hd _]; subst. cbn [map take_sign].
  destruct (digit_char_plain d Hd) as (_ & -> & ->). reflexivity.
Qed.

Lemma digitpart_str_of_N n : digitpart (str_of_N n) = Some (digits_of n, []).
Proof.
  apply digitpart_digits; [apply digits_of_not_nil|apply digits_of_small].
Qed.

Lemma str_of_int_token x : token (str_of_int x).
Proof.
  destruct x; cbn [str_of_int]; try apply str_of_N_token.
  destruct (str_of_N_token (Npos p)) as [_ H].
  split; [discriminate|]. now constructor.
Qed.

(** [int(str(x)) == x] *)
Lemma int_str_of_int x : int (str_of_int x) = Some x.
Proof.
  unfold int. rewrite (strip_token _ (str_of_int_token x)).
  destruct x as [|p|p]; cbn [str_of_int].
  - reflexivity.
  - rewrite take_sign_str_of_N, digitpart_str_of_N, digits_of_value.
    reflexivity.
  - cbn [take_sign]. rewrite Ascii.eqb_refl.
    rewrite digitpart_str_of_N, digits_of_value. reflexivity.
Qed.

(** ** A written file *)

Lemma format_line_denotes sep repr p :
  inline_space sep ->
  token (repr (snd p)) -> float_of_text (repr (snd p)) = Some (snd p) ->
  line_denotes (format_line sep repr p) p.
Proof.
  intros [Ns Hs] Ht Hf. exists (str_of_int (fst p)), (repr (snd p)).
  split; [|split; [apply int_str_of_int|exact Hf]].
  apply split_two; auto using str_of_int_token.
  eapply Forall_impl; [|exact Hs]. now intros c (H & _).
Qed.

Lemma file_lines_write sep repr series :
  inline_space sep ->
  Forall (fun p => token (repr (snd p))) series ->
  file_lines (write_series sep repr series)
  = map (format_line sep repr) series.
Proof.
  intros [_ Hs] H.
  assert (body : forall p, token (repr (snd p)) ->
            Forall (fun c => c <> LF /\ c <> CR)
                   (str_of_int (fst p) ++ sep ++ repr (snd p))).
  { intros p Hp.
    apply Forall_app; split; [|apply Forall_app; split].
    - apply token_no_newline, str_of_int_token.
    - eapply Forall_impl; [|exact Hs]. now intros c (_ & ? & ?).
    - now apply token_no_newline. }
  unfold file_lines. rewrite universal_newlines_id.
  - unfold lines_of, write_series.
    induction H as [|p series Hp _ IH]; [reflexivity|].
    cbn [map List.concat]. unfold format_line at 1.
    replace ((str_of_int (fst p) ++ sep ++ repr (snd p) ++ [LF])
             ++ List.concat (map (format_line sep repr) series))
      with ((str_of_int (fst p) ++ sep ++ repr (snd p))
            ++ LF :: List.concat (map (format_line sep repr) series))
      by (now rewrite <- !app_assoc).
    rewrite lines_from_line.
    + rewrite IH. cbn [rev app]. unfold format_line at 3.
      now rewrite <- !app_assoc.
    + eapply Forall_impl; [|exact (body p Hp)]. now intros c (? & _).
  - unfold write_series. induction H as [|p series Hp _ IH]; [constructor|].
    cbn [map List.concat]. apply Forall_app; split; [|exact IH].
    unfold format_line.
    replace (str_of_int (fst p) ++ sep ++ repr (snd p) ++ [LF])
      with ((str_of_int (fst p) ++ sep ++ repr (snd p)) ++ [LF])
      by (now rewrite <- !app_assoc).
    apply Forall_app; split.
    + eapply Forall_impl; [|exact (body p Hp)]. now intros c (_ & ?).
    + constructor; [discriminate|constructor].
Qed.

Lemma combine_fst_snd {A B} (l : list (A * B)) :
  combine (map fst l) (map snd l) = l.
Proof. induction l as [|[a b] l IH]; cbn; congruence. Qed.

Lemma Forall2_of_Forall ls :
  Forall (fun l => exists p, line_denotes l p) ls ->
  exists series, Forall2 line_denotes ls series.
Proof.
  induction 1 as [|l ls [p Hp] _ [series IH]].
  - exists []. constructor.
  - exists (p :: series). now constructor.
Qed.

Lemma Forall2_nth_error {A B} (R : A -> B -> Prop) la lb :
  Forall2 R la lb ->
  forall i a, nth_error la i = Some a ->
  exists b, nth_error lb i = Some b /\ R a b.
Proof.
  induction 1 as [|a0 b0 la lb H0 _ IH]; intros i a E.
  - now destruct i.
  - destruct i as [|i]; cbn in E |- *.
    + injection E as <-. eauto.
    + eauto.
Qed.

(** ** Loading *)

(** C1: for a file all of whose lines are an integer token followed by a
    float token, the call succeeds and appends one series: the new entry of
    [xs] holds the integers and the new entry of [ys] the floats of a list
    of pairs that has one pair per line of the file, the pair at index [i]
    being what the two tokens of line [i] stand for. *)
Theorem load_well_formed s file_name t :
  disk s file_name = Some t ->
  Forall (fun l => exists p, line_denotes l p) (file_lines t) ->
  exists s' series,
    read_memory_consuption file_name s = (Ok tt, s')
    /\ xs s' = xs s ++ [map fst series]
    /\ ys s' = ys s ++ [map snd series]
    /\ List.length series = List.length (file_lines t)
    /\ forall i line,
         nth_error (file_lines t) i = Some line ->
         exists p, nth_error series i = Some p /\ line_denotes line p.
Proof.
  intros Hd H. destruct (Forall2_of_Forall _ H) as [series H2].
  exists (loaded file_name (map fst series) (map snd series) s), series.
  split; [now apply read_well_formed with t|].
  repeat split.
  - symmetry. now apply Forall2_length with line_denotes.
  - now apply Forall2_nth_error.
Qed.

Lemma load_well_formed_witness :
  (disk (one_file two_lines) "samples" = Some two_lines
   /\ Forall (fun l => exists p, line_denotes l p) (file_lines two_lines))
  /\ exists s' series,
       read_memory_consuption "samples" (one_file two_lines) = (Ok tt, s')
       /\ xs s' = xs (one_file two_lines) ++ [map fst series]
       /\ ys s' = ys (one_file two_lines) ++ [map snd series]
       /\ List.length series = List.length (file_lines two_lines)
       /\ forall i line,
            nth_error (file_lines two_lines) i = Some line ->
            exists p, nth_error series i = Some p /\ line_denotes line p.
Proof.
  assert (H : Forall (fun l => exists p, line_denotes l p)
                     (file_lines two_lines)).
  { assert (E : file_lines two_lines
                = [txt "1 2.5" ++ [LF]; txt "2 3.75" ++ [LF]])
      by (vm_compute; reflexivity).
    rewrite E. constructor; [|constructor; [|constructor]].
    - exists (1%Z, f2_5), (txt "1"), (txt "2.5").
      repeat split; vm_compute; reflexivity.
    - exists (2%Z, f3_75), (txt "2"), (txt "3.75").
      repeat split; vm_compute; reflexivity. }
  split; [split; [reflexivity|exact H]|].
  exact (load_well_formed (one_file two_lines) "samples" two_lines eq_refl H).
Defined.

Lemma blank_fails line : blank line -> fails_line line.
Proof. unfold blank, fails_line. now intros ->. Qed.

Lemma blank_pending line : blank line -> pending_x line = [].
Proof. unfold blank, pending_x. now intros ->. Qed.

Lemma blank_line_file_lines :
  Forall (fun l => blank l \/ exists p, line_denotes l p)
         (file_lines blank_line_file)
  /\ Exists blank (file_lines blank_line_file).
Proof.
  assert (E : file_lines blank_line_file
              = [txt "1 2.5" ++ [LF]; [LF]; txt "2 3.75" ++ [LF]])
    by (vm_compute; reflexivity).
  rewrite E. split.
  - constructor; [|constructor; [|constructor; [|constructor]]].
    + right. exists (1%Z, f2_5), (txt "1"), (txt "2.5").
      repeat split; vm_compute; reflexivity.
    + left. reflexivity.
    + right. exists (2%Z, f3_75), (txt "2"), (txt "3.75").
      repeat split; vm_compute; reflexivity.
  - apply Exists_cons_tl, Exists_cons_hd. reflexivity.
Qed.

(** C2, as the spec has it, fails: a file whose lines are all well formed
    or empty, with an empty line among them, is not loaded. *)
Lemma blank_line_not_skipped :
  Forall (fun l => blank l \/ exists p, line_denotes l p)
         (file_lines blank_line_file)
  /\ Exists blank (file_lines blank_line_file)
  /\ fst (read_memory_consuption "samples" (one_file blank_line_file))
     = Raise ValueError.
Proof.
  destruct blank_line_file_lines as [Hall Hex].
  split; [exact Hall|split; [exact Hex|]].
  vm_compute. reflexivity.
Qed.

(** C2, amended: empty lines are not skipped.  When every line of the file
    is well formed or empty and some line is empty, the call raises
    [ValueError] at the first empty line, whose split cannot be unpacked
    into two names; [xs] and [ys] keep the values of the lines before it. *)
Theorem load_blank_line s file_name t :
  disk s file_name = Some t ->
  Forall (fun l => blank l \/ exists p, line_denotes l p) (file_lines t) ->
  Exists blank (file_lines t) ->
  exists before bl after series,
    file_lines t = before ++ bl :: after
    /\ Forall2 line_denotes before series /\ blank bl
    /\ read_memory_consuption file_name s
       = (Raise ValueError,
          loaded file_name (map fst series) (map snd series) s).
Proof.
  intros Hd Hall Hex.
  destruct (lines_classify (file_lines t))
    as [[series H2]|(before & bad & after & series & E & H2 & Hbad)].
  - exfalso. apply Exists_exists in Hex. destruct Hex as (l & Hin & Hb).
    apply In_nth_error in Hin. destruct Hin as [i Hi].
    destruct (Forall2_nth_error _ _ _ H2 i l Hi) as (p & _ & Hp).
    exact (line_denotes_not_fails _ _ Hp (blank_fails _ Hb)).
  - assert (Hb : blank bad).
    { rewrite Forall_forall in Hall.
      destruct (Hall bad) as [Hb|[p Hp]]; [|exact Hb|].
      - rewrite E. apply in_or_app. right. now left.
      - now destruct (line_denotes_not_fails _ _ Hp). }
    exists before, bad, after, series. repeat split; auto.
    rewrite (read_first_failure _ _ _ _ _ _ _ Hd E H2 Hbad).
    now rewrite (blank_pending _ Hb), app_nil_r.
Qed.

Lemma load_blank_line_witness :
  (disk (one_file blank_line_file) "samples" = Some blank_line_file
   /\ Forall (fun l => blank l \/ exists p, line_denotes l p)
             (file_lines blank_line_file)
   /\ Exists blank (file_lines blank_line_file))
  /\ exists before bl after series,
       file_lines blank_line_file = before ++ bl :: after
       /\ Forall2 line_denotes before series /\ blank bl
       /\ read_memory_consuption "samples" (one_file blank_line_file)
          = (Raise ValueError,
             loaded "samples" (map fst series) (map snd series)
                    (one_file blank_line_file)).
Proof.
  destruct blank_line_file_lines as (Hall & Hex).
  split; [split; [reflexivity|split; [exact Hall|exact Hex]]|].
  exact (load_blank_line (one_file blank_line_file) "samples" blank_line_file
           eq_refl Hall Hex).
Defined.

(** C3: when some line of the file is not empty and has not exactly two
    tokens, or has a first token that is no integer or a second token that
    is no float, the call raises [ValueError] and returns nothing. *)
Theorem load_malformed s file_name t :
  disk s file_name = Some t ->
  Exists malformed (file_lines t) ->
  exists s', read_memory_consuption file_name s = (Raise ValueError, s').
Proof.
  intros Hd Hex.
  destruct (lines_classify (file_lines t))
    as [[series H2]|(before & bad & after & series & E & H2 & Hbad)].
  - exfalso. apply Exists_exists in Hex. destruct Hex as (l & Hin & _ & Hf).
    apply In_nth_error in Hin. destruct Hin as [i Hi].
    destruct (Forall2_nth_error _ _ _ H2 i l Hi) as (p & _ & Hp).
    exact (line_denotes_not_fails _ _ Hp Hf).
  - eexists. exact (read_first_failure _ _ _ _ _ _ _ Hd E H2 Hbad).
Qed.

Lemma load_malformed_witness :
  (disk (one_file bad_float_file) "samples" = Some bad_float_file
   /\ Exists malformed (file_lines bad_float_file))
  /\ exists s',
       read_memory_consuption "samples" (one_file bad_float_file)
       = (Raise ValueError, s').
Proof.
  assert (H : Exists malformed (file_lines bad_float_file)).
  { assert (E : file_lines bad_float_file
                = [txt "1 2.5" ++ [LF]; txt "2 abc" ++ [LF]])
      by (vm_compute; reflexivity).
    rewrite E. apply Exists_cons_tl, Exists_cons_hd.
    split; [discriminate|]. right. vm_compute. reflexivity. }
  split; [split; [reflexivity|exact H]|].
  exact (load_malformed (one_file bad_float_file) "samples" bad_float_file
           eq_refl H).
Defined.

(** ** Floats that are written exactly *)

Lemma token_of_forallb t :
  forallb (fun c => negb (isspace c)) t = true -> t <> [] -> token t.
Proof.
  intros Hb Hn. split; [exact Hn|]. apply Forall_forall. intros c Hc.
  rewrite forallb_forall in Hb. apply Hb in Hc. now destruct (isspace c).
Qed.

Lemma floatnumber_str_of_N n : floatnumber (str_of_N n) = Some (n, 0%Z).
Proof.
  unfold floatnumber. rewrite digitpart_str_of_N.
  pose proof (digits_of_not_nil n) as N. pose proof (digits_of_value n) as V.
  destruct (digits_of n) as [|d ds]; [congruence|].
  now rewrite app_nil_r, V.
Qed.













(** *** Reading the exact rendering *)














Lemma one_file_disk t : disk (one_file t) "samples" = Some t.
Proof. reflexivity. Qed.

Lemma space_inline : inline_space (txt " ").
Proof.
  split; [discriminate|]. constructor; [|constructor].
  repeat split; discriminate.
Qed.

Lemma sample_series_read_back :
  Forall (fun p => token (exact_repr (snd p))
                   /\ float_of_text (exact_repr (snd p)) = Some (snd p))
         sample_series.
Proof.
  constructor; [|constructor; [|constructor]]; split.
  - apply token_of_forallb; vm_compute; [reflexivity|discriminate].
  - vm_compute; reflexivity.
  - apply token_of_forallb; vm_compute; [reflexivity|discriminate].
  - vm_compute; reflexivity.
Qed.


(** ** What a call leaves behind *)

Lemma read_success file_name s s' :
  read_memory_consuption file_name s = (Ok tt, s') ->
  exists t series,
    disk s file_name = Some t
    /\ Forall2 line_denotes (file_lines t) series
    /\ s' = loaded file_name (map fst series) (map snd series) s.
Proof.
  intros H. destruct (disk s file_name) as [t|] eqn:Hd.
  - exists t.
    destruct (lines_classify (file_lines t))
      as [[series H2]|(before & bad & after & series & E & H2 & Hbad)].
    + exists series. rewrite (read_well_formed _ _ _ _ Hd H2) in H.
      injection H as <-. auto.
    + rewrite (read_first_failure _ _ _ _ _ _ _ Hd E H2 Hbad) in H.
      discriminate.
  - rewrite (read_missing _ _ Hd) in H. discriminate.
Qed.

Lemma read_state file_name s :
  match disk s file_name with
  | None => read_memory_consuption file_name s = (Raise OSError, s)
  | Some t =>
      exists r nx ny,
        read_memory_consuption file_name s = (r, loaded file_name nx ny s)
        /\ (r = Ok tt \/ r = Raise ValueError)
  end.
Proof.
  destruct (disk s file_name) as [t|] eqn:Hd; [|now apply read_missing].
  destruct (lines_classify (file_lines t))
    as [[series H2]|(before & bad & after & series & E & H2 & Hbad)].
  - exists (Ok tt), (map fst series), (map snd series).
    split; [now apply read_well_formed with t|now left].
  - exists (Raise ValueError), (map fst series ++ pending_x bad),
      (map snd series).
    split; [now apply read_first_failure with t before after|now right].
Qed.

(** C6, as the spec has it, fails: a call changes the global [xs]. *)
Lemma read_changes_globals :
  xs (one_file two_lines) = []
  /\ xs (snd (read_memory_consuption "samples" (one_file two_lines)))
     = [[1%Z; 2%Z]].
Proof. split; vm_compute; reflexivity. Qed.

(** C6, amended: a call returns no series.  Besides reading the file it
    appends one series to each of the globals [xs] and [ys]; the file
    system, the figure, what was displayed and the series there before are
    unchanged, and a call whose file cannot be opened changes nothing. *)
Theorem read_effects file_name s :
  match disk s file_name with
  | None => snd (read_memory_consuption file_name s) = s
  | Some _ =>
      exists nx ny,
        xs (snd (read_memory_consuption file_name s)) = xs s ++ [nx]
        /\ ys (snd (read_memory_consuption file_name s)) = ys s ++ [ny]
        /\ disk (snd (read_memory_consuption file_name s)) = disk s
        /\ fig (snd (read_memory_consuption file_name s)) = fig s
        /\ shown (snd (read_memory_consuption file_name s)) = shown s
  end.
Proof.
  pose proof (read_state file_name s) as H.
  destruct (disk s file_name) as [t|].
  - destruct H as (r & nx & ny & E & _). exists nx, ny. now rewrite E.
  - now rewrite H.
Qed.

(** *** Calls and the file objects they make *)

Lemma reclaim_from_snoc fl o :
  reclaim_from (List.length fl) (fl ++ [o]) = fl ++ [reclaim o].
Proof.
  unfold reclaim_from. induction fl as [|a fl IH]; [reflexivity|].
  cbn [List.length app firstn skipn]. now rewrite IH.
Qed.

Lemma call_read_well_formed file_name t series s :
  disk s file_name = Some t ->
  Forall2 line_denotes (file_lines t) series ->
  call (read_memory_consuption file_name) s
  = (Ok tt, returned file_name (map fst series) (map snd series) s).
Proof.
  intros Hd H. unfold call. rewrite (read_well_formed _ _ _ _ Hd H).
  unfold loaded, returned, set_files. cbn [files disk xs ys fig shown].
  now rewrite reclaim_from_snoc.
Qed.

Lemma call_raises {A} (body : M A) s e s' :
  body s = (Raise e, s') -> call body s = (Raise e, s').
Proof. unfold call. now intros ->. Qed.

Lemma call_raise_inv {A} (body : M A) s e s' :
  call body s = (Raise e, s') -> body s = (Raise e, s').
Proof.
  unfold call. destruct (body s) as [[a|e0] s1]; [discriminate|].
  now intros H.
Qed.

Lemma call_read_success file_name s s' :
  call (read_memory_consuption file_name) s = (Ok tt, s') ->
  exists t series,
    disk s file_name = Some t
    /\ Forall2 line_denotes (file_lines t) series
    /\ s' = returned file_name (map fst series) (map snd series) s.
Proof.
  intros H.
  destruct (read_memory_consuption file_name s) as [[[]|e] s1] eqn:E.
  - apply read_success in E. destruct E as (t & series & Hd & H2 & _).
    exists t, series. rewrite (call_read_well_formed _ _ _ _ Hd H2) in H.
    injection H as <-. auto.
  - apply call_raises in E. rewrite E in H. discriminate.
Qed.

Lemma after_calls_nil s : after_calls [] [] s = s.
Proof. destruct s. unfold after_calls. cbn. now rewrite !app_nil_r. Qed.

Lemma after_calls_cons n l sr series s :
  after_calls l series (returned n (map fst sr) (map snd sr) s)
  = after_calls (n :: l) (sr :: series) s.
Proof. unfold after_calls, returned. cbn. now rewrite <- !app_assoc. Qed.

Lemma run_list_ok d l series :
  Forall2 (loads d) l series ->
  forall s, disk s = d ->
  for_each l (fun n => call (read_memory_consuption n)) s
  = (Ok tt, after_calls l series s).
Proof.
  induction 1 as [|n sr l series (t & Hd & H2) _ IH]; intros s E.
  - now rewrite after_calls_nil.
  - cbn [for_each]. unfold bind. subst d.
    rewrite (call_read_well_formed _ _ _ _ Hd H2).
    rewrite IH by reflexivity. now rewrite after_calls_cons.
Qed.

Lemma run_list_inv l : forall s s',
  for_each l (fun n => call (read_memory_consuption n)) s = (Ok tt, s') ->
  exists series,
    Forall2 (loads (disk s)) l series /\ s' = after_calls l series s.
Proof.
  induction l as [|n l IH]; intros s s' H.
  - injection H as <-. exists []. split; [constructor|].
    now rewrite after_calls_nil.
  - cbn [for_each] in H. unfold bind in H.
    destruct (call (read_memory_consuption n) s) as [[[]|e] s1] eqn:E;
      [|discriminate].
    apply call_read_success in E. destruct E as (t & sr & Hd & H2 & ->).
    apply IH in H. destruct H as (series & HF & ->).
    exists (sr :: series). split.
    + constructor; [now exists t|exact HF].
    + apply after_calls_cons.
Qed.

Lemma run_list_fail l : forall s e s',
  for_each l (fun n => call (read_memory_consuption n)) s = (Raise e, s') ->
  exists pre n post series,
    l = pre ++ n :: post
    /\ Forall2 (loads (disk s)) pre series
    /\ read_memory_consuption n (after_calls pre series s) = (Raise e, s').
Proof.
  induction l as [|n l IH]; intros s e s' H; [discriminate|].
  cbn [for_each] in H. unfold bind in H.
  destruct (call (read_memory_consuption n) s) as [[[]|e0] s1] eqn:E.
  - apply call_read_success in E. destruct E as (t & sr & Hd & H2 & ->).
    apply IH in H. destruct H as (pre & m & post & series & -> & HF & H).
    exists (n :: pre), m, post, (sr :: series). split; [reflexivity|].
    split; [constructor; [now exists t|exact HF]|].
    now rewrite <- after_calls_cons.
  - injection H as <- <-. apply call_raise_inv in E. exists [], n, l, [].
    split; [reflexivity|]. split; [constructor|].
    now rewrite after_calls_nil.
Qed.

(** C7, as the spec has it, fails: when the parsing of a file fails, its
    file object is left open; in a run whose second file does not parse,
    the first file object is closed and the second is not. *)
Lemma handle_open_after_failure :
  call (read_memory_consuption "samples") (one_file bad_float_file)
  = (Raise ValueError,
     loaded "samples" [1%Z; 2%Z] [f2_5] (one_file bad_float_file))
  /\ files (loaded "samples" [1%Z; 2%Z] [f2_5] (one_file bad_float_file))
     = [mk_file "samples" [] false]
  /\ fst (main (initial second_bad)) = Raise ValueError
  /\ files (snd (main (initial second_bad)))
     = [mk_file "LongLongHashMapMemory" [] true;
        mk_file "HashMapMemory" [] false].
Proof. repeat split; vm_compute; reflexivity. Qed.

(** C7, amended: a call on a file that can be opened makes one file
    object and reads it to its end; the object is closed when the call
    returns, before the next file is opened, so that in every run at most
    one file object is open at a time and none is after a run without
    failure.  The script itself closes nothing: when the parsing of a file
    fails, its file object is left open while the exception ends the
    run. *)
Theorem handle_after_call :
  (forall file_name s,
     files (snd (call (read_memory_consuption file_name) s))
     = match disk s file_name with
       | Some _ =>
           files s
           ++ [mk_file file_name []
                 match fst (call (read_memory_consuption file_name) s) with
                 | Ok _ => true
                 | Raise _ => false
                 end]
       | None => files s
       end)
  /\ (forall d l,
        exists done rest,
          files (snd (for_each l
                        (fun n => call (read_memory_consuption n))
                        (initial d)))
          = map (fun n => mk_file n [] true) done ++ rest
          /\ (fst (for_each l
                     (fun n => call (read_memory_consuption n))
                     (initial d)) = Ok tt -> done = l /\ rest = [])
          /\ (rest = []
              \/ exists n,
                   rest = [mk_file n [] false]
                   /\ fst (for_each l
                             (fun n => call (read_memory_consuption n))
                             (initial d)) = Raise ValueError)).
Proof.
  split.
  - intros file_name s. pose proof (read_state file_name s) as H.
    destruct (disk s file_name) as [t|] eqn:Hd.
    + destruct H as (r & nx & ny & E & [-> | ->]).
      * apply read_success in E. destruct E as (t' & sr & Hd' & H2 & _).
        now rewrite (call_read_well_formed _ _ _ _ Hd' H2).
      * apply call_raises in E. now rewrite E.
    + apply call_raises in H. now rewrite H.
  - intros d l.
    destruct (for_each l (fun n => call (read_memory_consuption n))
                (initial d)) as [[[]|e] s'] eqn:E.
    + apply run_list_inv in E. destruct E as (series & _ & ->).
      exists l, []. cbn [snd fst after_calls files initial app].
      rewrite app_nil_r. auto.
    + apply run_list_fail in E.
      destruct E as (pre & n & post & series & _ & _ & E).
      pose proof (read_state n (after_calls pre series (initial d))) as R.
      destruct (disk (after_calls pre series (initial d)) n).
      * destruct R as (r & nx & ny & R & [-> | ->]); rewrite R in E;
          [discriminate|]. injection E as <- <-.
        exists pre, [mk_file n [] false].
        cbn [snd fst loaded after_calls files initial app].
        split; [reflexivity|]. split; [discriminate|].
        right. now exists n.
      * rewrite R in E. injection E as <- <-. exists pre, [].
        cbn [snd fst after_calls files initial app]. rewrite app_nil_r.
        split; [reflexivity|]. split; [discriminate|]. now left.
Qed.

Lemma bad_float_file_lines :
  file_lines bad_float_file = [txt "1 2.5" ++ [LF]] ++ (txt "2 abc" ++ [LF]) :: []
  /\ Forall2 line_denotes [txt "1 2.5" ++ [LF]] [(1%Z, f2_5)]
  /\ fails_line (txt "2 abc" ++ [LF]).
Proof.
  split; [vm_compute; reflexivity|]. split.
  - constructor; [|constructor].
    exists (txt "1"), (txt "2.5"). repeat split; vm_compute; reflexivity.
  - right. vm_compute. reflexivity.
Qed.

(** C9, as the spec has it, fails: when the float of the second line does
    not parse, the new entry of [xs] holds the integer of that line too,
    not only the values of the line before it. *)
Lemma failed_float_keeps_x :
  file_lines bad_float_file = [txt "1 2.5" ++ [LF]; txt "2 abc" ++ [LF]]
  /\ line_denotes (txt "1 2.5" ++ [LF]) (1%Z, f2_5)
  /\ fails_line (txt "2 abc" ++ [LF])
  /\ read_memory_consuption "samples" (one_file bad_float_file)
     = (Raise ValueError,
        loaded "samples" [1%Z; 2%Z] [f2_5] (one_file bad_float_file))
  /\ xs (snd (read_memory_consuption "samples" (one_file bad_float_file)))
     <> xs (one_file bad_float_file) ++ [map fst [(1%Z, f2_5)]].
Proof.
  destruct bad_float_file_lines as (E & H2 & Hbad).
  split; [exact E|]. split; [now inversion H2|]. split; [exact Hbad|].
  split; [vm_compute; reflexivity|].
  vm_compute. discriminate.
Qed.

(** C9, amended: when the loop raises on a line, the new entry of [ys]
    holds the floats of the lines before it, and the new entry of [xs] the
    integers of the lines before it followed, when the failure is the float
    of the line, by the integer of that line; nothing is rolled back. *)
Theorem load_not_atomic s file_name t before bad after series :
  disk s file_name = Some t ->
  file_lines t = before ++ bad :: after ->
  Forall2 line_denotes before series -> fails_line bad ->
  exists s',
    read_memory_consuption file_name s = (Raise ValueError, s')
    /\ xs s' = xs s ++ [map fst series ++ pending_x bad]
    /\ ys s' = ys s ++ [map snd series]
    /\ (pending_x bad = []
        \/ exists tx ty x,
             split bad = [tx; ty] /\ int tx = Some x
             /\ float_of_text ty = None /\ pending_x bad = [x]).
Proof.
  intros Hd E H2 Hbad. eexists.
  split; [exact (read_first_failure _ _ _ _ _ _ _ Hd E H2 Hbad)|].
  repeat split. unfold pending_x.
  destruct (split bad) as [|tx [|ty [|tz r]]]; auto.
  destruct (int tx) as [x|] eqn:Hi; auto.
  destruct (float_of_text ty) eqn:Hf; auto.
  right. exists tx, ty, x. auto.
Qed.

Lemma load_not_atomic_witness :
  (disk (one_file bad_float_file) "samples" = Some bad_float_file
   /\ file_lines bad_float_file
      = [txt "1 2.5" ++ [LF]] ++ (txt "2 abc" ++ [LF]) :: []
   /\ Forall2 line_denotes [txt "1 2.5" ++ [LF]] [(1%Z, f2_5)]
   /\ fails_line (txt "2 abc" ++ [LF]))
  /\ exists s',
       read_memory_consuption "samples" (one_file bad_float_file)
       = (Raise ValueError, s')
       /\ xs s' = xs (one_file bad_float_file)
                  ++ [map fst [(1%Z, f2_5)] ++ pending_x (txt "2 abc" ++ [LF])]
       /\ ys s' = ys (one_file bad_float_file) ++ [map snd [(1%Z, f2_5)]]
       /\ (pending_x (txt "2 abc" ++ [LF]) = []
           \/ exists tx ty x,
                split (txt "2 abc" ++ [LF]) = [tx; ty] /\ int tx = Some x
                /\ float_of_text ty = None
                /\ pending_x (txt "2 abc" ++ [LF]) = [x]).
Proof.
  destruct bad_float_file_lines as (E & H2 & Hbad).
  split; [split; [apply one_file_disk|split; [exact E|split; assumption]]|].
  exact (load_not_atomic (one_file bad_float_file) "samples" bad_float_file
           _ _ [] _ (one_file_disk _) E H2 Hbad).
Defined.

(** C10, as the spec has it, fails: a call whose file cannot be opened
    fails before anything is appended. *)
Lemma missing_file_appends_nothing :
  read_memory_consuption "samples" (initial (disk_of []))
  = (Raise OSError, initial (disk_of []))
  /\ xs (initial (disk_of [])) = []
  /\ xs (snd (read_memory_consuption "samples" (initial (disk_of [])))) = [].
Proof. repeat split. Qed.

(** C10, amended: [xs] and [ys] have the same length after a call, as they
    had before it, whether the call returns or raises.  A call whose file
    can be opened appends exactly one series to each, both empty when the
    loop over the lines starts, and leaves the earlier series as they
    were; a call whose file cannot be opened appends nothing. *)
Theorem accumulators_in_step file_name s :
  List.length (xs s) = List.length (ys s) ->
  List.length (xs (snd (read_memory_consuption file_name s)))
  = List.length (ys (snd (read_memory_consuption file_name s)))
  /\ match disk s file_name with
     | Some t =>
         read_memory_consuption file_name s
         = for_each (file_lines t) read_line (opened file_name s)
         /\ xs (opened file_name s) = xs s ++ [[]]
         /\ ys (opened file_name s) = ys s ++ [[]]
         /\ exists nx ny,
              xs (snd (read_memory_consuption file_name s)) = xs s ++ [nx]
              /\ ys (snd (read_memory_consuption file_name s)) = ys s ++ [ny]
     | None =>
         xs (snd (read_memory_consuption file_name s)) = xs s
         /\ ys (snd (read_memory_consuption file_name s)) = ys s
     end.
Proof.
  intros L. pose proof (read_state file_name s) as H.
  destruct (disk s file_name) as [t|] eqn:Hd.
  - destruct H as (r & nx & ny & E & _).
    split; [rewrite E; cbn; rewrite !length_app, L; reflexivity|].
    split; [now apply read_unfold|]. repeat split.
    exists nx, ny. now rewrite E.
  - rewrite H. auto.
Qed.

Lemma accumulators_in_step_witness :
  List.length (xs (one_file bad_float_file))
  = List.length (ys (one_file bad_float_file))
  /\ List.length
       (xs (snd (read_memory_consuption "samples" (one_file bad_float_file))))
     = List.length
         (ys (snd (read_memory_consuption "samples" (one_file bad_float_file)))).
Proof.
  split; [reflexivity|].
  exact (proj1 (accumulators_in_step "samples" (one_file bad_float_file)
                  eq_refl)).
Defined.

(** ** Plotting *)

Lemma render_run s x0 x1 x2 x3 X y0 y1 y2 y3 Y :
  xs s = x0 :: x1 :: x2 :: x3 :: X ->
  ys s = y0 :: y1 :: y2 :: y3 :: Y ->
  List.length x0 = List.length y0 -> List.length x1 = List.length y1 ->
  List.length x2 = List.length y2 -> List.length x3 = List.length y3 ->
  render s
  = (Ok tt,
     let f := chart (fig s)
                [mk_line x0 y0 "LongLongMap"; mk_line x1 y1 "HashMap";
                 mk_line x2 y2 "Hashtable"; mk_line x3 y3 "TreeMap"] in
     set_shown (shown s ++ [f]) (set_fig f s)).
Proof.
  intros Hx Hy L0 L1 L2 L3. destruct s as [d sx sy fl fg sh].
  cbn [xs ys] in Hx, Hy. subst sx sy.
  unfold render, plot, bind, of_option, legend, yticks, show, chart.
  cbn [xs ys nth_error ret set_fig]. rewrite L0, Nat.eqb_refl.
  cbn [xs ys nth_error ret set_fig]. rewrite L1, Nat.eqb_refl.
  cbn [xs ys nth_error ret set_fig]. rewrite L2, Nat.eqb_refl.
  cbn [xs ys nth_error ret set_fig]. rewrite L3, Nat.eqb_refl.
  cbn [set_fig set_shown fig shown fig_lines fig_legend fig_yticks disk files
       xs ys].
  rewrite <- !app_assoc. reflexivity.
Qed.

Lemma render_after_calls d series :
  Forall2 (loads d) names series ->
  exists s',
    render (after_calls names series (initial d)) = (Ok tt, s')
    /\ xs s' = map (map fst) series /\ ys s' = map (map snd) series
    /\ shown s'
       = [mk_figure
            (map (fun p => line_of (fst p) (snd p)) (combine series labels))
            (Some labels) (Some [0; 1; 2; 3; 4; 5; 6; 7]%Z)].
Proof.
  intros H. unfold names in H.
  inversion H as [|? sr0 ? ? _ H0]; subst; clear H.
  inversion H0 as [|? sr1 ? ? _ H1]; subst; clear H0.
  inversion H1 as [|? sr2 ? ? _ H2]; subst; clear H1.
  inversion H2 as [|? sr3 ? ? _ H3]; subst; clear H2.
  inversion H3; subst; clear H3.
  eexists. split; [|split; [|split]].
  - apply (render_run _ (map fst sr0) (map fst sr1) (map fst sr2)
             (map fst sr3) [] (map snd sr0) (map snd sr1) (map snd sr2)
             (map snd sr3) []);
      try reflexivity; now rewrite !length_map.
  - reflexivity.
  - reflexivity.
  - reflexivity.
Qed.

(** C5, as the spec has it, fails: with four files that hold no line every
    series is empty, and the chart is drawn and displayed all the same. *)
Lemma empty_series_rendered :
  fst (main (initial empty_files)) = Ok tt
  /\ xs (snd (main (initial empty_files))) = [[]; []; []; []]
  /\ ys (snd (main (initial empty_files))) = [[]; []; []; []]
  /\ shown (snd (main (initial empty_files)))
     = [chart empty_figure
          [mk_line [] [] "LongLongMap"; mk_line [] [] "HashMap";
           mk_line [] [] "Hashtable"; mk_line [] [] "TreeMap"]].
Proof. repeat split; vm_compute; reflexivity. Qed.

(** C5, amended: the plotting part of the script checks nothing and raises
    nothing for an empty series.  Whatever four series the accumulators
    start with, empty ones included, it draws one line for each under the
    four fixed labels and displays the chart; series and labels are paired
    by the four calls themselves, so their numbers cannot differ. *)
Theorem render_accepts s sr0 sr1 sr2 sr3 X Y :
  xs s = map (map fst) [sr0; sr1; sr2; sr3] ++ X ->
  ys s = map (map snd) [sr0; sr1; sr2; sr3] ++ Y ->
  exists s',
    render s = (Ok tt, s')
    /\ shown s'
       = shown s
         ++ [chart (fig s)
               [line_of sr0 "LongLongMap"; line_of sr1 "HashMap";
                line_of sr2 "Hashtable"; line_of sr3 "TreeMap"]].
Proof.
  intros Hx Hy. eexists. split.
  - apply (render_run s _ _ _ _ X _ _ _ _ Y Hx Hy);
      now rewrite !length_map.
  - reflexivity.
Qed.

Lemma render_accepts_witness :
  (xs (snd (load_all (initial empty_files)))
   = map (map fst) (repeat (@nil (Z * float)) 4) ++ []
   /\ ys (snd (load_all (initial empty_files)))
      = map (map snd) (repeat (@nil (Z * float)) 4) ++ [])
  /\ exists s',
       render (snd (load_all (initial empty_files))) = (Ok tt, s')
       /\ shown s'
          = shown (snd (load_all (initial empty_files)))
            ++ [chart (fig (snd (load_all (initial empty_files))))
                  [line_of [] "LongLongMap"; line_of [] "HashMap";
                   line_of [] "Hashtable"; line_of [] "TreeMap"]].
Proof.
  assert (Hx : xs (snd (load_all (initial empty_files)))
               = map (map fst) (repeat (@nil (Z * float)) 4) ++ [])
    by (vm_compute; reflexivity).
  assert (Hy : ys (snd (load_all (initial empty_files)))
               = map (map snd) (repeat (@nil (Z * float)) 4) ++ [])
    by (vm_compute; reflexivity).
  split; [split; assumption|].
  exact (render_accepts _ [] [] [] [] [] [] Hx Hy).
Defined.

(** C8: when the four files are loaded, the script displays one chart; it
    has one line per input file, in the order of the files, with the data
    of that file and the labels LongLongMap, HashMap, Hashtable, TreeMap,
    a legend with these four labels, and the y-axis ticks 0 to 7, whatever
    the data. *)
Theorem chart_of_run d s1 :
  load_all (initial d) = (Ok tt, s1) ->
  exists series s2,
    Forall2 (fun n sr => exists t,
               d n = Some t /\ Forall2 line_denotes (file_lines t) sr)
            names series
    /\ main (initial d) = (Ok tt, s2)
    /\ shown s2
       = [mk_figure
            (map (fun p => line_of (fst p) (snd p)) (combine series labels))
            (Some labels) (Some [0; 1; 2; 3; 4; 5; 6; 7]%Z)].
Proof.
  intros H. unfold main, bind. rewrite H.
  apply run_list_inv in H. destruct H as (series & HF & ->).
  cbn [disk initial] in HF.
  destruct (render_after_calls d series HF) as (s2 & R & _ & _ & Hs).
  exists series, s2. split; [exact HF|]. split; [exact R|exact Hs].
Qed.

Lemma chart_of_run_witness :
  load_all (initial four_files) = (Ok tt, snd (load_all (initial four_files)))
  /\ exists series s2,
       Forall2 (fun n sr => exists t,
                  four_files n = Some t
                  /\ Forall2 line_denotes (file_lines t) sr)
               names series
       /\ main (initial four_files) = (Ok tt, s2)
       /\ shown s2
          = [mk_figure
               (map (fun p => line_of (fst p) (snd p)) (combine series labels))
               (Some labels) (Some [0; 1; 2; 3; 4; 5; 6; 7]%Z)].
Proof.
  assert (H : load_all (initial four_files)
              = (Ok tt, snd (load_all (initial four_files))))
    by (vm_compute; reflexivity).
  split; [exact H|].
  exact (chart_of_run four_files _ H).
Defined.

(** * Further properties *)

(** ** The loop over the files *)

Lemma after_files_nil s : after_files [] [] s = s.
Proof. destruct s. unfold after_files. cbn. now rewrite !app_nil_r. Qed.

Lemma after_files_cons n l sr series s :
  after_files l series (loaded n (map fst sr) (map snd sr) s)
  = after_files (n :: l) (sr :: series) s.
Proof. unfold after_files, loaded. cbn. now rewrite <- !app_assoc. Qed.

Lemma load_list_inv l : forall s s',
  for_each l read_memory_consuption s = (Ok tt, s') ->
  exists series,
    Forall2 (loads (disk s)) l series /\ s' = after_files l series s.
Proof.
  induction l as [|n l IH]; intros s s' H.
  - injection H as <-. exists []. split; [constructor|].
    now rewrite after_files_nil.
  - cbn [for_each] in H. unfold bind in H.
    destruct (read_memory_consuption n s) as [[[]|e] s1] eqn:E;
      [|discriminate].
    apply read_success in E. destruct E as (t & sr & Hd & H2 & ->).
    apply IH in H. destruct H as (series & HF & ->).
    exists (sr :: series). split.
    + constructor; [now exists t|exact HF].
    + apply after_files_cons.
Qed.

Lemma for_each_app {A} (body : A -> M unit) l1 l2 s :
  for_each (l1 ++ l2) body s
  = match for_each l1 body s with
    | (Ok _, s1) => for_each l2 body s1
    | (Raise e, s1) => (Raise e, s1)
    end.
Proof.
  revert s. induction l1 as [|a l1 IH]; intros s; [reflexivity|].
  cbn [app for_each]. unfold bind.
  destruct (body a s) as [[u|e] s1]; [apply IH|reflexivity].
Qed.

(** The first line on which the loop body raises, when there is one. *)
Lemma first_failure ls :
  Exists fails_line ls ->
  exists before bad after series,
    ls = before ++ bad :: after
    /\ Forall2 line_denotes before series /\ fails_line bad.
Proof.
  intros Hex.
  destruct (lines_classify ls) as [[series H2]|H]; [|exact H].
  exfalso. apply Exists_exists in Hex. destruct Hex as (l & Hin & Hf).
  apply In_nth_error in Hin. destruct Hin as [i Hi].
  destruct (Forall2_nth_error _ _ _ H2 i l Hi) as (p & _ & Hp).
  exact (line_denotes_not_fails _ _ Hp Hf).
Qed.

Lemma Forall2_denotes_Forall ls series :
  Forall2 line_denotes ls series ->
  Forall (fun l => exists p, line_denotes l p) ls.
Proof. induction 1; constructor; eauto. Qed.

(** ** The whole script *)

(** X1: the script ends normally exactly when each of the four files can
    be opened and holds nothing but well-formed lines. *)
Theorem main_succeeds_iff d :
  fst (main (initial d)) = Ok tt
  <-> Forall (fun n => exists t,
                d n = Some t
                /\ Forall (fun l => exists p, line_denotes l p) (file_lines t))
             names.
Proof.
  unfold main, bind. split.
  - destruct (load_all (initial d)) as [[[]|e] s1] eqn:E; [|discriminate].
    intros _. apply run_list_inv in E. destruct E as (series & HF & _).
    cbn [disk initial] in HF. clear s1.
    induction HF as [|n sr l series (t & Hd & H2) _ IH]; constructor; auto.
    exists t. split; [exact Hd|]. now apply Forall2_denotes_Forall with sr.
  - intros H.
    assert (HF : exists series, Forall2 (loads d) names series).
    { induction H as [|n l (t & Hd & Hl) _ [series IH]].
      - exists []. constructor.
      - destruct (Forall2_of_Forall _ Hl) as [sr H2].
        exists (sr :: series). constructor; [now exists t|exact IH]. }
    destruct HF as [series HF]. unfold load_all.
    rewrite (run_list_ok d _ _ HF) by reflexivity.
    destruct (render_after_calls d series HF) as (s' & -> & _). reflexivity.
Qed.

(** X2: when the script raises, it is the loop over the files that
    raised, with the [OSError] of a file that cannot be opened or the
    [ValueError] of a line that cannot be parsed; the plotting calls were
    not reached and raise nothing, no subscript is out of range, and
    nothing has been drawn or displayed. *)
Theorem main_failure d e s :
  main (initial d) = (Raise e, s) ->
  load_all (initial d) = (Raise e, s)
  /\ (e = OSError \/ e = ValueError)
  /\ fig s = empty_figure /\ shown s = [].
Proof.
  unfold main, bind. intros H.
  destruct (load_all (initial d)) as [[[]|e0] s1] eqn:E.
  - apply run_list_inv in E. destruct E as (series & HF & ->).
    destruct (render_after_calls d series HF) as (s' & R & _).
    rewrite R in H. discriminate.
  - injection H as <- <-. split; [reflexivity|].
    apply run_list_fail in E.
    destruct E as (pre & n & post & series & _ & _ & E).
    pose proof (read_state n (after_calls pre series (initial d))) as R.
    destruct (disk (after_calls pre series (initial d)) n).
    + destruct R as (r & nx & ny & R & [->| ->]); rewrite R in E;
        [discriminate|]. injection E as <- <-. auto.
    + rewrite R in E. injection E as <- <-. auto.
Qed.

Lemma main_failure_witness :
  main (initial (disk_of [])) = (Raise OSError, initial (disk_of []))
  /\ load_all (initial (disk_of [])) = (Raise OSError, initial (disk_of []))
  /\ (OSError = OSError \/ OSError = ValueError)
  /\ fig (initial (disk_of [])) = empty_figure
  /\ shown (initial (disk_of [])) = [].
Proof.
  split; [reflexivity|].
  exact (main_failure (disk_of []) OSError (initial (disk_of [])) eq_refl).
Defined.

(** X3: the script stops at the first file that cannot be opened or has a
    line that cannot be parsed: it raises [OSError] in the first case and
    [ValueError] in the second, the files after it are never opened, and
    the series of the files before it are in [xs] and [ys]. *)
Theorem main_stops_at_first_failure d pre n post series :
  names = pre ++ n :: post ->
  Forall2 (loads d) pre series ->
  (d n = None \/ exists t, d n = Some t /\ Exists fails_line (file_lines t)) ->
  exists s' rx ry,
    main (initial d)
    = (Raise (match d n with None => OSError | Some _ => ValueError end), s')
    /\ map f_name (files s')
       = pre ++ match d n with None => [] | Some _ => [n] end
    /\ xs s' = map (map fst) series ++ rx
    /\ ys s' = map (map snd) series ++ ry
    /\ List.length (xs s') = List.length (files s')
    /\ List.length (ys s') = List.length (files s').
Proof.
  intros En HF Hn. unfold main, load_all. rewrite En.
  unfold bind. rewrite for_each_app.
  rewrite (run_list_ok d _ _ HF) by reflexivity.
  cbn [for_each]. unfold bind.
  assert (L : List.length pre = List.length series)
    by (now apply Forall2_length with (loads d)).
  destruct Hn as [Hd|(t & Hd & Hex)]; rewrite Hd.
  - rewrite (call_raises _ _ _ _
               (read_missing n (after_calls pre series (initial d)) Hd)).
    exists (after_calls pre series (initial d)), [], [].
    split; [reflexivity|]. cbn [after_calls files xs ys initial app].
    rewrite !app_nil_r, !length_map, map_map. cbn [f_name].
    rewrite map_id, L. auto.
  - destruct (first_failure _ Hex) as (before & bad & after & sr & E & H2 & Hb).
    rewrite (call_raises _ _ _ _
               (read_first_failure _ _ _ _ _ sr
                  (after_calls pre series (initial d)) Hd E H2 Hb)).
    eexists. exists [map fst sr ++ pending_x bad], [map snd sr].
    split; [reflexivity|]. cbn [after_calls loaded files xs ys initial app].
    rewrite !length_app, !length_map, !map_app, map_map. cbn [f_name map].
    rewrite map_id. cbn [List.length]. rewrite L. auto.
Qed.

Lemma main_stops_at_first_failure_witness :
  (names = ["LongLongHashMapMemory"%string] ++ "HashMapMemory"%string
           :: ["HashtableMemory"; "TreeMapMemory"]%string
   /\ Forall2 (loads second_missing) ["LongLongHashMapMemory"%string]
              [sample_series]
   /\ (second_missing "HashMapMemory" = None
       \/ exists t, second_missing "HashMapMemory" = Some t
                    /\ Exists fails_line (file_lines t)))
  /\ exists s' rx ry,
       main (initial second_missing)
       = (Raise (match second_missing "HashMapMemory" with
                 | None => OSError
                 | Some _ => ValueError
                 end), s')
       /\ map f_name (files s')
          = ["LongLongHashMapMemory"%string]
            ++ match second_missing "HashMapMemory" with
               | None => []
               | Some _ => ["HashMapMemory"%string]
               end
       /\ xs s' = map (map fst) [sample_series] ++ rx
       /\ ys s' = map (map snd) [sample_series] ++ ry
       /\ List.length (xs s') = List.length (files s')
       /\ List.length (ys s') = List.length (files s').
Proof.
  assert (HF : Forall2 (loads second_missing) ["LongLongHashMapMemory"%string]
                 [sample_series]).
  { constructor; [|constructor]. exists two_lines. split; [reflexivity|].
    assert (E : file_lines two_lines
                = [txt "1 2.5" ++ [LF]; txt "2 3.75" ++ [LF]])
      by (vm_compute; reflexivity).
    rewrite E. constructor; [|constructor; [|constructor]].
    - exists (txt "1"), (txt "2.5"). repeat split; vm_compute; reflexivity.
    - exists (txt "2"), (txt "3.75"). repeat split; vm_compute; reflexivity. }
  split; [split; [reflexivity|split; [exact HF|left; reflexivity]]|].
  exact (main_stops_at_first_failure second_missing
           ["LongLongHashMapMemory"%string] "HashMapMemory"
           ["HashtableMemory"; "TreeMapMemory"]%string [sample_series]
           eq_refl HF (or_introl eq_refl)).
Defined.

(** ** The lengths of the series *)

Lemma pending_x_length bad : List.length (pending_x bad) <= 1.
Proof.
  unfold pending_x. destruct (split bad) as [|tx [|ty [|tz r]]]; cbn; try lia.
  destruct (int tx); [destruct (float_of_text ty)|]; cbn; lia.
Qed.

Lemma Forall2_snoc {A B} (R : A -> B -> Prop) la lb a b :
  Forall2 R la lb -> R a b -> Forall2 R (la ++ [a]) (lb ++ [b]).
Proof. intros H Hab. apply Forall2_app; [exact H|]. now repeat constructor. Qed.

Lemma read_keeps_aligned file_name s :
  Forall2 aligned (xs s) (ys s) ->
  Forall2 aligned (xs (snd (read_memory_consuption file_name s)))
          (ys (snd (read_memory_consuption file_name s))).
Proof.
  intros H. destruct (disk s file_name) as [t|] eqn:Hd.
  - destruct (lines_classify (file_lines t))
      as [[series H2]|(before & bad & after & series & E & H2 & Hbad)].
    + rewrite (read_well_formed _ _ _ _ Hd H2). cbn [snd loaded xs ys].
      apply Forall2_snoc; [exact H|]. left. now rewrite !length_map.
    + rewrite (read_first_failure _ _ _ _ _ _ _ Hd E H2 Hbad).
      cbn [snd loaded xs ys]. apply Forall2_snoc; [exact H|].
      unfold aligned. rewrite length_app, !length_map.
      pose proof (pending_x_length bad). lia.
  - now rewrite (read_missing _ _ Hd).
Qed.

(** X4: whatever files are loaded one after the other, and also when a
    call raises, each x series has as many values as its y series or one
    more; when no call raised, each has exactly as many. *)
Theorem series_keep_step d l :
  Forall2 aligned
    (xs (snd (for_each l read_memory_consuption (initial d))))
    (ys (snd (for_each l read_memory_consuption (initial d))))
  /\ (fst (for_each l read_memory_consuption (initial d)) = Ok tt ->
      Forall2 (fun x y => List.length x = List.length y)
        (xs (snd (for_each l read_memory_consuption (initial d))))
        (ys (snd (for_each l read_memory_consuption (initial d))))).
Proof.
  split.
  - assert (loop : forall s, Forall2 aligned (xs s) (ys s) ->
              Forall2 aligned
                (xs (snd (for_each l read_memory_consuption s)))
                (ys (snd (for_each l read_memory_consuption s)))).
    { induction l as [|n l IH]; intros s Hs; [exact Hs|].
      cbn [for_each]. unfold bind.
      pose proof (read_keeps_aligned n s Hs) as Hn.
      destruct (read_memory_consuption n s) as [[u|e] s1]; cbn [snd] in Hn.
      - now apply IH.
      - exact Hn. }
    apply loop. constructor.
  - destruct (for_each l read_memory_consuption (initial d))
      as [[[]|e] s'] eqn:E; [|discriminate].
    intros _. apply load_list_inv in E. destruct E as (series & _ & ->).
    cbn [snd after_files xs ys initial app]. clear.
    induction series as [|sr series IH]; constructor; [|exact IH].
    now rewrite !length_map.
Qed.

(** ** Files with the same tokens *)

Lemma read_line_tokens l1 l2 s :
  same_tokens l1 l2 -> read_line l1 s = read_line l2 s.
Proof. unfold same_tokens, read_line. now intros ->. Qed.

Lemma line_denotes_tokens l1 l2 p :
  same_tokens l1 l2 -> line_denotes l1 p -> line_denotes l2 p.
Proof. unfold same_tokens, line_denotes. now intros ->. Qed.

Lemma fails_line_tokens l1 l2 :
  same_tokens l1 l2 -> fails_line l1 -> fails_line l2.
Proof. unfold same_tokens, fails_line. now intros ->. Qed.

Lemma pending_x_tokens l1 l2 :
  same_tokens l1 l2 -> pending_x l1 = pending_x l2.
Proof. unfold same_tokens, pending_x. now intros ->. Qed.

Lemma Forall2_denotes_tokens ls1 ls2 series :
  Forall2 same_tokens ls1 ls2 -> Forall2 line_denotes ls1 series ->
  Forall2 line_denotes ls2 series.
Proof.
  intros H. revert series.
  induction H as [|l1 l2 ls1 ls2 Hl _ IH]; intros series H2;
    inversion H2; subst; constructor; eauto using line_denotes_tokens.
Qed.

(** Two files whose lines have the same tokens, line by line, end a call
    the same way and with the same new series. *)
Lemma read_alike file_name1 file_name2 t1 t2 s1 s2 :
  disk s1 file_name1 = Some t1 -> disk s2 file_name2 = Some t2 ->
  Forall2 same_tokens (file_lines t1) (file_lines t2) ->
  exists r nx ny,
    read_memory_consuption file_name1 s1 = (r, loaded file_name1 nx ny s1)
    /\ read_memory_consuption file_name2 s2 = (r, loaded file_name2 nx ny s2).
Proof.
  intros D1 D2 HT.
  destruct (lines_classify (file_lines t1))
    as [[series H2]|(before & bad & after & series & E & H2 & Hbad)].
  - exists (Ok tt), (map fst series), (map snd series). split.
    + now apply read_well_formed with t1.
    + apply read_well_formed with t2; [exact D2|].
      now apply Forall2_denotes_tokens with (file_lines t1).
  - rewrite E in HT. apply Forall2_app_inv_l in HT.
    destruct HT as (before' & rest & HB & HR & E').
    inversion HR as [|? bad' ? after' Hb _]; subst rest.
    exists (Raise ValueError), (map fst series ++ pending_x bad),
      (map snd series).
    split.
    + now apply read_first_failure with t1 before after.
    + rewrite (pending_x_tokens _ _ Hb).
      apply read_first_failure with t2 before' after'; auto.
      * now apply Forall2_denotes_tokens with before.
      * now apply fails_line_tokens with bad.
Qed.

Lemma Forall2_same_tokens_refl ls : Forall2 same_tokens ls ls.
Proof. induction ls; constructor; auto. reflexivity. Qed.

(** ** Line endings *)

Lemma with_eol_cons eol c t :
  with_eol eol (c :: t)
  = (if Ascii.eqb c LF then eol else [c]) ++ with_eol eol t.
Proof. reflexivity. Qed.

Lemma universal_newlines_CR b r :
  universal_newlines b (CR :: r) = LF :: universal_newlines true r.
Proof. reflexivity. Qed.

Lemma universal_newlines_after_CR r :
  universal_newlines true (LF :: r) = universal_newlines false r.
Proof. reflexivity. Qed.

Lemma universal_newlines_plain b c r :
  c <> CR -> c <> LF ->
  universal_newlines b (c :: r) = c :: universal_newlines false r.
Proof.
  intros HC HL. apply Ascii.eqb_neq in HC, HL.
  cbn [universal_newlines]. now rewrite HC, HL.
Qed.

Lemma universal_newlines_crlf t :
  Forall (fun c => c <> CR) t ->
  universal_newlines false (with_eol [CR; LF] t) = t.
Proof.
  induction 1 as [|c t Hc _ IH]; [reflexivity|].
  rewrite with_eol_cons. destruct (Ascii.eqb c LF) eqn:E.
  - apply Ascii.eqb_eq in E. subst c. cbn [app].
    now rewrite universal_newlines_CR, universal_newlines_after_CR, IH.
  - apply Ascii.eqb_neq in E. cbn [app].
    now rewrite (universal_newlines_plain _ _ _ Hc E), IH.
Qed.

Lemma universal_newlines_cr t : forall b,
  Forall (fun c => c <> CR) t ->
  universal_newlines b (with_eol [CR] t) = t.
Proof.
  induction t as [|c t IH]; intros b H; [reflexivity|].
  inversion H as [|? ? Hc Ht]; subst.
  rewrite with_eol_cons. destruct (Ascii.eqb c LF) eqn:E.
  - apply Ascii.eqb_eq in E. subst c. cbn [app].
    now rewrite universal_newlines_CR, IH.
  - apply Ascii.eqb_neq in E. cbn [app].
    now rewrite (universal_newlines_plain _ _ _ Hc E), IH.
Qed.

(** X5: a file whose lines end in [\r\n], or in [\r] alone, is loaded like
    the file with [\n] line ends: the call ends the same way and appends
    the same series. *)
Theorem line_endings_alike eol file_name t s1 s2 :
  eol = [CR; LF] \/ eol = [CR] ->
  Forall (fun c => c <> CR) t ->
  disk s1 file_name = Some t ->
  disk s2 file_name = Some (with_eol eol t) ->
  exists r nx ny,
    read_memory_consuption file_name s1 = (r, loaded file_name nx ny s1)
    /\ read_memory_consuption file_name s2 = (r, loaded file_name nx ny s2).
Proof.
  intros He Ht D1 D2. apply read_alike with t (with_eol eol t); auto.
  assert (E : file_lines (with_eol eol t) = file_lines t).
  { unfold file_lines. destruct He as [-> | ->].
    - now rewrite universal_newlines_crlf, universal_newlines_id.
    - now rewrite universal_newlines_cr, universal_newlines_id. }
  rewrite E. apply Forall2_same_tokens_refl.
Qed.

Lemma no_CR_of_forallb t :
  forallb (fun c => negb (Ascii.eqb c CR)) t = true ->
  Forall (fun c => c <> CR) t.
Proof.
  intros Hb. apply Forall_forall. intros c Hc.
  rewrite forallb_forall in Hb. apply Hb in Hc.
  intros ->. discriminate.
Qed.

Lemma line_endings_alike_witness :
  ([CR; LF] = [CR; LF] \/ [CR; LF] = [CR])
  /\ Forall (fun c => c <> CR) two_lines
  /\ disk (one_file two_lines) "samples" = Some two_lines
  /\ disk (one_file (with_eol [CR; LF] two_lines)) "samples"
     = Some (with_eol [CR; LF] two_lines)
  /\ exists r nx ny,
       read_memory_consuption "samples" (one_file two_lines)
       = (r, loaded "samples" nx ny (one_file two_lines))
       /\ read_memory_consuption "samples"
            (one_file (with_eol [CR; LF] two_lines))
          = (r, loaded "samples" nx ny
                  (one_file (with_eol [CR; LF] two_lines))).
Proof.
  assert (H : Forall (fun c => c <> CR) two_lines)
    by (apply no_CR_of_forallb; vm_compute; reflexivity).
  split; [now left|]. split; [exact H|].
  split; [apply one_file_disk|]. split; [apply one_file_disk|].
  exact (line_endings_alike [CR; LF] "samples" two_lines _ _
           (or_introl eq_refl) H (one_file_disk _) (one_file_disk _)).
Defined.

(** ** The end of the last line *)

Lemma universal_newlines_CR_LF t : forall b,
  universal_newlines b (t ++ [CR; LF]) = universal_newlines b (t ++ [CR]).
Proof.
  induction t as [|h t IH]; intros b; [reflexivity|].
  cbn [app universal_newlines].
  destruct (Ascii.eqb h CR); [now rewrite IH|].
  destruct (Ascii.eqb h LF); [destruct b|]; now rewrite IH.
Qed.

Lemma universal_newlines_last c t : forall b,
  c <> LF -> c <> CR ->
  exists w,
    universal_newlines b (t ++ [c]) = w ++ [c]
    /\ universal_newlines b (t ++ [c; LF]) = w ++ [c; LF].
Proof.
  intros b HL HC. apply Ascii.eqb_neq in HL, HC. revert b.
  induction t as [|h t IH]; intros b.
  - exists []. cbn [app universal_newlines]. rewrite HC, HL.
    split; reflexivity.
  - cbn [app universal_newlines].
    destruct (Ascii.eqb h CR).
    + destruct (IH true) as (w & -> & ->). now exists (LF :: w).
    + destruct (Ascii.eqb h LF); [destruct b|].
      * destruct (IH false) as (w & -> & ->). now exists w.
      * destruct (IH false) as (w & -> & ->). now exists (LF :: w).
      * destruct (IH false) as (w & -> & ->). now exists (h :: w).
Qed.

Lemma lines_from_last c w : forall cur,
  c <> LF ->
  exists L l,
    lines_from cur (w ++ [c]) = L ++ [l]
    /\ lines_from cur (w ++ [c; LF]) = L ++ [l ++ [LF]].
Proof.
  intros cur HL. apply Ascii.eqb_neq in HL. revert cur.
  induction w as [|h w IH]; intros cur.
  - exists [], (rev (c :: cur)). cbn [app lines_from].
    rewrite HL, Ascii.eqb_refl. cbn [lines_from]. split; reflexivity.
  - cbn [app lines_from]. destruct (Ascii.eqb h LF).
    + destruct (IH []) as (L & l & -> & ->).
      now exists (rev (h :: cur) :: L), l.
    + apply IH.
Qed.

Lemma split_from_trailing sp l : forall cur,
  isspace sp = true -> split_from cur (l ++ [sp]) = split_from cur l.
Proof.
  intros cur Hsp. revert cur. induction l as [|c l IH]; intros cur.
  - cbn [app split_from]. rewrite Hsp. now destruct cur.
  - cbn [app split_from]. destruct (isspace c); [destruct cur|]; now rewrite IH.
Qed.

(** X6: the newline at the end of the last line is optional: a file that
    does not end in [\n] and the same file with a final [\n] are loaded
    alike. *)
Theorem final_newline_optional file_name t c s1 s2 :
  c <> LF ->
  disk s1 file_name = Some (t ++ [c]) ->
  disk s2 file_name = Some (t ++ [c; LF]) ->
  exists r nx ny,
    read_memory_consuption file_name s1 = (r, loaded file_name nx ny s1)
    /\ read_memory_consuption file_name s2 = (r, loaded file_name nx ny s2).
Proof.
  intros HL D1 D2. apply read_alike with (t ++ [c]) (t ++ [c; LF]); auto.
  unfold file_lines. destruct (ascii_dec c CR) as [->|HC].
  - rewrite universal_newlines_CR_LF. apply Forall2_same_tokens_refl.
  - destruct (universal_newlines_last c t false HL HC) as (w & -> & ->).
    unfold lines_of. destruct (lines_from_last c w [] HL) as (L & l & -> & ->).
    apply Forall2_app; [apply Forall2_same_tokens_refl|].
    constructor; [|constructor]. unfold same_tokens, split. symmetry.
    now apply split_from_trailing.
Qed.

Lemma final_newline_optional_witness :
  ascii_of_nat 53 <> LF
  /\ disk (one_file (txt "1 2." ++ [ascii_of_nat 53])) "samples"
     = Some (txt "1 2." ++ [ascii_of_nat 53])
  /\ disk (one_file (txt "1 2." ++ [ascii_of_nat 53; LF])) "samples"
     = Some (txt "1 2." ++ [ascii_of_nat 53; LF])
  /\ exists r nx ny,
       read_memory_consuption "samples"
         (one_file (txt "1 2." ++ [ascii_of_nat 53]))
       = (r, loaded "samples" nx ny
               (one_file (txt "1 2." ++ [ascii_of_nat 53])))
       /\ read_memory_consuption "samples"
            (one_file (txt "1 2." ++ [ascii_of_nat 53; LF]))
          = (r, loaded "samples" nx ny
                  (one_file (txt "1 2." ++ [ascii_of_nat 53; LF]))).
Proof.
  assert (H : ascii_of_nat 53 <> LF) by discriminate.
  split; [exact H|]. split; [apply one_file_disk|].
  split; [apply one_file_disk|].
  exact (final_newline_optional "samples" (txt "1 2.") (ascii_of_nat 53) _ _
           H (one_file_disk _) (one_file_disk _)).
Defined.

(** ** The layout of a line *)

Lemma split_from_lead ws r :
  whitespace ws -> split_from [] (ws ++ r) = split_from [] r.
Proof. apply split_from_spaces. Qed.

Lemma split_from_end cur ws :
  cur <> [] -> whitespace ws -> split_from cur ws = [rev cur].
Proof.
  intros Hc H. destruct H as [|c ws Hsp Hws].
  - now destruct cur.
  - cbn [split_from]. rewrite Hsp. destruct cur; [congruence|].
    rewrite <- (app_nil_r ws). now rewrite split_from_spaces.
Qed.

(** X8: the whitespace of a line does not matter: with any whitespace
    before the first token, any whitespace after the second and any
    non-empty whitespace between them, the loop body does what it does on
    the two tokens separated by one space. *)
Theorem line_layout ws0 tx ws1 ty ws2 s :
  token tx -> token ty ->
  whitespace ws0 -> whitespace ws1 -> ws1 <> [] -> whitespace ws2 ->
  split (laid_out ws0 tx ws1 ty ws2) = [tx; ty]
  /\ read_line (laid_out ws0 tx ws1 ty ws2) s
     = read_line (tx ++ txt " " ++ ty) s.
Proof.
  intros [Nx Hx] [Ny Hy] H0 H1 N1 H2.
  assert (layout : forall w0 w1 w2,
            whitespace w0 -> whitespace w1 -> w1 <> [] -> whitespace w2 ->
            split (laid_out w0 tx w1 ty w2) = [tx; ty]).
  { intros w0 w1 w2 K0 K1 M1 K2. unfold split, laid_out.
    rewrite (split_from_lead _ _ K0).
    rewrite (split_from_token _ _ _ Hx), app_nil_r.
    destruct w1 as [|c w1]; [congruence|].
    inversion K1 as [|? ? Hc Hw1]; subst. cbn [app].
    rewrite (split_from_run _ _ _ _ (rev_not_nil _ Nx) Hc Hw1).
    rewrite rev_involutive. f_equal.
    rewrite (split_from_token _ _ _ Hy), app_nil_r.
    rewrite (split_from_end _ _ (rev_not_nil _ Ny) K2).
    now rewrite rev_involutive. }
  split; [now apply layout|].
  apply read_line_tokens. unfold same_tokens.
  rewrite (layout ws0 ws1 ws2 H0 H1 N1 H2).
  symmetry.
  replace (tx ++ txt " " ++ ty) with (laid_out [] tx (txt " ") ty [])
    by (unfold laid_out; cbn [app]; now rewrite app_nil_r).
  apply layout; try constructor; try discriminate.
  - reflexivity.
  - constructor.
Qed.

Lemma whitespace_of_forallb ws : forallb isspace ws = true -> whitespace ws.
Proof.
  intros Hb. apply Forall_forall. intros c Hc.
  rewrite forallb_forall in Hb. now apply Hb.
Qed.

Lemma line_layout_witness :
  (token (txt "1") /\ token (txt "2.5")
   /\ whitespace [ascii_of_nat 9] /\ whitespace (txt "  ")
   /\ txt "  " <> [] /\ whitespace [CR; LF])
  /\ split (laid_out [ascii_of_nat 9] (txt "1") (txt "  ") (txt "2.5")
                     [CR; LF])
     = [txt "1"; txt "2.5"]
  /\ read_line (laid_out [ascii_of_nat 9] (txt "1") (txt "  ") (txt "2.5")
                         [CR; LF]) (opened "samples" (one_file two_lines))
     = read_line (txt "1" ++ txt " " ++ txt "2.5")
         (opened "samples" (one_file two_lines)).
Proof.
  assert (Tx : token (txt "1"))
    by (apply token_of_forallb; [reflexivity|discriminate]).
  assert (Ty : token (txt "2.5"))
    by (apply token_of_forallb; [reflexivity|discriminate]).
  assert (W0 : whitespace [ascii_of_nat 9])
    by (apply whitespace_of_forallb; reflexivity).
  assert (W1 : whitespace (txt "  "))
    by (apply whitespace_of_forallb; reflexivity).
  assert (N1 : txt "  " <> []) by discriminate.
  assert (W2 : whitespace [CR; LF])
    by (apply whitespace_of_forallb; reflexivity).
  split; [exact (conj Tx (conj Ty (conj W0 (conj W1 (conj N1 W2)))))|].
  exact (line_layout _ _ _ _ _ (opened "samples" (one_file two_lines))
           Tx Ty W0 W1 N1 W2).
Defined.

(** ** Empty files and repeated calls *)

Lemma lines_from_nil s : forall cur, lines_from cur s = [] -> cur = [] /\ s = [].
Proof.
  induction s as [|c s IH]; intros cur H.
  - destruct cur; [auto|discriminate].
  - cbn [lines_from] in H. destruct (Ascii.eqb c LF); [discriminate|].
    apply IH in H. destruct H as [H _]. discriminate.
Qed.

Lemma file_lines_nil t : file_lines t = [] -> t = [].
Proof.
  unfold file_lines, lines_of. intros H. apply lines_from_nil in H.
  destruct H as [_ H]. destruct t as [|c t]; [reflexivity|].
  cbn [universal_newlines] in H.
  destruct (Ascii.eqb c CR); [discriminate|].
  destruct (Ascii.eqb c LF); discriminate.
Qed.

(** X7: a call returns with an empty series exactly when the file is
    empty; a file with at least one character gives a series with at least
    one pair, or an error. *)
Theorem empty_series_iff_empty_file file_name t s :
  disk s file_name = Some t ->
  (read_memory_consuption file_name s = (Ok tt, loaded file_name [] [] s)
   <-> t = []).
Proof.
  intros Hd. split.
  - intros H. apply file_lines_nil.
    destruct (lines_classify (file_lines t))
      as [[series H2]|(before & bad & after & series & E & H2 & Hbad)].
    + rewrite (read_well_formed _ _ _ _ Hd H2) in H.
      injection H as Hx _. apply app_inv_head in Hx.
      injection Hx as Hx. apply map_eq_nil in Hx. subst series.
      now inversion H2.
    + rewrite (read_first_failure _ _ _ _ _ _ _ Hd E H2 Hbad) in H.
      discriminate.
  - intros ->. apply (read_well_formed _ [] [] s Hd). constructor.
Qed.

Lemma empty_series_iff_empty_file_witness :
  disk (one_file []) "samples" = Some []
  /\ (read_memory_consuption "samples" (one_file [])
      = (Ok tt, loaded "samples" [] [] (one_file []))
      <-> @nil ascii = []).
Proof.
  split; [reflexivity|].
  exact (empty_series_iff_empty_file "samples" [] (one_file [])
           (one_file_disk [])).
Defined.

(** X9: every call opens the file anew and reads it from its start:
    calling the function a second time for the same file ends the same
    way and appends the same series again. *)
Theorem read_twice file_name s :
  fst (read_memory_consuption file_name
         (snd (read_memory_consuption file_name s)))
  = fst (read_memory_consuption file_name s)
  /\ exists dx dy,
       xs (snd (read_memory_consuption file_name s)) = xs s ++ dx
       /\ ys (snd (read_memory_consuption file_name s)) = ys s ++ dy
       /\ xs (snd (read_memory_consuption file_name
                     (snd (read_memory_consuption file_name s))))
          = xs s ++ dx ++ dx
       /\ ys (snd (read_memory_consuption file_name
                     (snd (read_memory_consuption file_name s))))
          = ys s ++ dy ++ dy.
Proof.
  destruct (disk s file_name) as [t|] eqn:Hd.
  - pose proof (read_state file_name s) as R. rewrite Hd in R.
    destruct R as (r0 & nx0 & ny0 & R0 & _).
    destruct (read_alike file_name file_name t t s
                (loaded file_name nx0 ny0 s) Hd Hd
                (Forall2_same_tokens_refl _))
      as (r & nx & ny & R1 & R2).
    rewrite R1 in R0. injection R0 as _ Hx Hy.
    assert (Ex : nx0 = nx /\ ny0 = ny).
    { apply app_inv_head in Hx, Hy. split; congruence. }
    destruct Ex as [-> ->]. rewrite R1. cbn [snd]. rewrite R2.
    split; [reflexivity|]. exists [nx], [ny]. cbn [snd loaded xs ys].
    now rewrite <- !app_assoc.
  - rewrite (read_missing _ _ Hd). cbn [snd]. rewrite (read_missing _ _ Hd).
    split; [reflexivity|]. exists [], []. cbn [snd]. now rewrite !app_nil_r.
Qed.

(** ** What [int] accepts *)

Lemma digitpart_rest_chars n : forall s ds,
  List.length s <= n -> digitpart_rest s = (ds, []) ->
  Forall integer_char s.
Proof.
  induction n as [|n IH]; intros s ds L H.
  - destruct s; [constructor|cbn in L; lia].
  - destruct s as [|c s']; [constructor|]. cbn [List.length] in L.
    cbn [digitpart_rest] in H.
    destruct (digit_val c) as [d|] eqn:Dc.
    + destruct (digitpart_rest s') as [ds' r] eqn:R.
      injection H as _ ->. constructor.
      * left. congruence.
      * apply (IH s' ds'); [lia|exact R].
    + destruct (Ascii.eqb c underscore) eqn:U; [|discriminate].
      apply Ascii.eqb_eq in U.
      destruct s' as [|c2 s'']; [discriminate|].
      destruct (digit_val c2) as [d|] eqn:D2; [|discriminate].
      destruct (digitpart_rest s'') as [ds' r] eqn:R.
      injection H as _ ->. cbn [List.length] in L.
      constructor; [right; now left|].
      constructor; [left; congruence|].
      apply (IH s'' ds'); [lia|exact R].
Qed.

Lemma digitpart_chars r ds :
  digitpart r = Some (ds, []) -> Forall integer_char r.
Proof.
  unfold digitpart. destruct r as [|c s']; [discriminate|].
  destruct (digit_val c) as [d|] eqn:Dc; [|discriminate].
  destruct (digitpart_rest s') as [ds' r] eqn:R.
  intros H. injection H as _ ->. constructor.
  - left. congruence.
  - now apply (digitpart_rest_chars (List.length s') s' ds').
Qed.

Lemma take_sign_chars s neg r :
  take_sign s = (neg, r) -> Forall integer_char r -> Forall integer_char s.
Proof.
  unfold take_sign. destruct s as [|c s']; [now intros [= _ <-]|].
  destruct (Ascii.eqb c minus_sign) eqn:Em.
  - apply Ascii.eqb_eq in Em. intros [= _ <-] H.
    constructor; [|exact H]. right. right. now right.
  - destruct (Ascii.eqb c plus_sign) eqn:Ep.
    + apply Ascii.eqb_eq in Ep. intros [= _ <-] H.
      constructor; [|exact H]. right. right. now left.
    + now intros [= _ <-].
Qed.

Lemma lstrip_keeps c s :
  In c s -> isspace c = false -> In c (lstrip s).
Proof.
  intros Hin Hc. induction s as [|h s IH]; [exact Hin|].
  cbn [lstrip]. destruct (isspace h) eqn:Eh; [|exact Hin].
  destruct Hin as [->|Hin]; [congruence|now apply IH].
Qed.

Lemma strip_keeps c s : In c s -> isspace c = false -> In c (strip s).
Proof.
  intros Hin Hc. unfold strip. rewrite <- in_rev.
  apply lstrip_keeps; [|exact Hc]. rewrite <- in_rev.
  now apply lstrip_keeps.
Qed.

(** [int] accepts a text only if each of its characters is whitespace or
    the character of an integer literal. *)
Lemma int_chars s z c :
  int s = Some z -> In c s -> isspace c = false -> integer_char c.
Proof.
  unfold int. intros H Hin Hc.
  destruct (take_sign (strip s)) as [neg r] eqn:T.
  destruct (digitpart r) as [[ds [|? ?]]|] eqn:D; try discriminate.
  pose proof (take_sign_chars _ _ _ T (digitpart_chars _ _ D)) as F.
  rewrite Forall_forall in F. apply F. now apply strip_keeps.
Qed.

Lemma split_from_clean s : forall cur tok,
  Forall (fun c => isspace c = false) cur ->
  In tok (split_from cur s) ->
  Forall (fun c => isspace c = false) tok.
Proof.
  induction s as [|c s IH]; intros cur tok Hcur Hin.
  - cbn [split_from] in Hin. destruct cur; [contradiction|].
    destruct Hin as [<-|[]]. now apply Forall_rev.
  - cbn [split_from] in Hin. destruct (isspace c) eqn:Ec.
    + destruct cur as [|h cur'].
      * now apply (IH [] tok).
      * destruct Hin as [<-|Hin]; [now apply Forall_rev|].
        now apply (IH [] tok).
    + apply (IH (c :: cur) tok); [|exact Hin]. now constructor.
Qed.

(** X10: the first value of a line has to be written as an integer.  When
    the first token of some line of the file holds a character that is no
    digit, sign or underscore, a decimal point for one, the call raises
    [ValueError]. *)
Theorem x_must_be_integer file_name t s line tx rest c :
  disk s file_name = Some t ->
  In line (file_lines t) ->
  split line = tx :: rest -> In c tx -> ~ integer_char c ->
  exists s', read_memory_consuption file_name s = (Raise ValueError, s').
Proof.
  intros Hd Hin Hs Hc Hn.
  assert (Hf : fails_line line).
  { unfold fails_line. rewrite Hs. destruct rest as [|ty [|tz r]]; auto.
    left. destruct (int tx) as [z|] eqn:Hi; [|reflexivity].
    exfalso. apply Hn. apply (int_chars tx z c Hi Hc).
    assert (K : Forall (fun c => isspace c = false) tx).
    { apply (split_from_clean line [] tx); [constructor|].
      fold (split line). rewrite Hs. now left. }
    rewrite Forall_forall in K. now apply K. }
  assert (Hex : Exists fails_line (file_lines t))
    by (apply Exists_exists; eauto).
  destruct (first_failure _ Hex) as (before & bad & after & sr & E & H2 & Hb).
  eexists. exact (read_first_failure _ _ _ _ _ _ _ Hd E H2 Hb).
Qed.

Lemma x_must_be_integer_witness :
  (disk (one_file (txt "1.0 2.5")) "samples" = Some (txt "1.0 2.5")
   /\ In (txt "1.0 2.5") (file_lines (txt "1.0 2.5"))
   /\ split (txt "1.0 2.5") = txt "1.0" :: [txt "2.5"]
   /\ In dot (txt "1.0") /\ ~ integer_char dot)
  /\ exists s',
       read_memory_consuption "samples" (one_file (txt "1.0 2.5"))
       = (Raise ValueError, s').
Proof.
  assert (Hin : In (txt "1.0 2.5") (file_lines (txt "1.0 2.5")))
    by (left; reflexivity).
  assert (Hc : In dot (txt "1.0")) by (right; left; reflexivity).
  assert (Hn : ~ integer_char dot).
  { intros [H|[H|[H|H]]]; [now apply H|discriminate..]. }
  split; [exact (conj (one_file_disk _) (conj Hin (conj eq_refl
                   (conj Hc Hn))))|].
  exact (x_must_be_integer "samples" (txt "1.0 2.5") _ (txt "1.0 2.5")
           (txt "1.0") [txt "2.5"] dot (one_file_disk _) Hin eq_refl Hc Hn).
Defined.

(** ** Integers where a float is expected *)

Lemma str_of_N_no_word n (w : text) c :
  (65 <= N_of_ascii c)%N ->
  map lower (str_of_N n) <> c :: w.
Proof.
  intros Hc E. unfold str_of_N in E.
  pose proof (digits_of_not_nil n) as N. pose proof (digits_of_small n) as H.
  destruct (digits_of n) as [|d ds]; [congruence|].
  inversion H as [|? ? Hd _]; subst. cbn [map] in E.
  injection E as E _. subst c. revert Hc. small_digit d; cbv; congruence.
Qed.

Lemma float_of_str_of_N s neg n :
  take_sign (strip s) = (neg, str_of_N n) ->
  float_of_text s = Some (round_decimal neg n 0).
Proof.
  intros T. unfold float_of_text. rewrite T.
  destruct (list_eq_dec ascii_dec (map lower (str_of_N n)) (txt "inf"))
    as [E|_]; [now apply str_of_N_no_word in E|].
  destruct (list_eq_dec ascii_dec (map lower (str_of_N n)) (txt "infinity"))
    as [E|_]; [now apply str_of_N_no_word in E|].
  destruct (list_eq_dec ascii_dec (map lower (str_of_N n)) (txt "nan"))
    as [E|_]; [now apply str_of_N_no_word in E|].
  now rewrite floatnumber_str_of_N.
Qed.

(** X11: the second value of a line may be written as an integer: a line
    made of two integers in decimal is well formed, its second value being
    the float nearest to that integer. *)
Theorem integer_line_loads x1 x2 :
  line_denotes (str_of_int x1 ++ txt " " ++ str_of_int x2 ++ [LF])
    (x1, round_decimal (x2 <? 0)%Z (Z.abs_N x2) 0).
Proof.
  exists (str_of_int x1), (str_of_int x2). split; [|split].
  - apply split_two; auto using str_of_int_token; [discriminate|].
    now repeat constructor.
  - apply int_str_of_int.
  - cbn [snd]. destruct x2 as [|p|p].
    + reflexivity.
    + apply float_of_str_of_N.
      rewrite (strip_token _ (str_of_int_token _)). apply take_sign_str_of_N.
    + apply float_of_str_of_N.
      rewrite (strip_token _ (str_of_int_token _)). cbn [str_of_int take_sign].
      now rewrite Ascii.eqb_refl.
Qed.

(** ** From written files to the chart *)

Lemma written_file_denotes sep repr series :
  inline_space sep ->
  Forall (fun p => token (repr (snd p))
                   /\ float_of_text (repr (snd p)) = Some (snd p)) series ->
  Forall2 line_denotes (file_lines (write_series sep repr series)) series.
Proof.
  intros Hsep H.
  assert (Ht : Forall (fun p => token (repr (snd p))) series)
    by (eapply Forall_impl; [|exact H]; now intros p [? _]).
  rewrite (file_lines_write _ _ _ Hsep Ht). clear Ht.
  induction H as [|p series [Hp Hf] _ IH]; constructor; auto.
  now apply format_line_denotes.
Qed.

(** X12: end to end.  When each of the four files holds a series written
    one pair per line, with a float rendering that [float] reads back, the
    script ends normally, [xs] and [ys] hold the four series in the order
    of the files, and the one chart displayed has a line for each series
    under its label. *)
Theorem end_to_end d sep repr series :
  inline_space sep ->
  Forall (Forall (fun p => token (repr (snd p))
                           /\ float_of_text (repr (snd p)) = Some (snd p)))
         series ->
  Forall2 (fun n sr => d n = Some (write_series sep repr sr)) names series ->
  exists s,
    main (initial d) = (Ok tt, s)
    /\ xs s = map (map fst) series /\ ys s = map (map snd) series
    /\ shown s
       = [mk_figure
            (map (fun p => line_of (fst p) (snd p)) (combine series labels))
            (Some labels) (Some [0; 1; 2; 3; 4; 5; 6; 7]%Z)].
Proof.
  intros Hsep Hr Hd.
  assert (HF : Forall2 (loads d) names series).
  { induction Hd as [|n sr l series Hn _ IH]; [constructor|].
    inversion Hr as [|? ? Hsr Hrest]; subst.
    constructor; [|now apply IH].
    exists (write_series sep repr sr). split; [exact Hn|].
    now apply written_file_denotes. }
  unfold main, bind, load_all.
  rewrite (run_list_ok d _ _ HF) by reflexivity.
  destruct (render_after_calls d series HF) as (s' & -> & Hx & Hy & Hs).
  exists s'. auto.
Qed.

Lemma four_written_files :
  Forall2 (fun n sr =>
             four_written n = Some (write_series (txt " ") exact_repr sr))
          names (repeat sample_series 4).
Proof.
  unfold names. cbn [repeat].
  repeat (apply Forall2_cons; [vm_compute; reflexivity|]).
  apply Forall2_nil.
Qed.

Lemma end_to_end_witness :
  (inline_space (txt " ")
   /\ Forall (Forall (fun p => token (exact_repr (snd p))
                       /\ float_of_text (exact_repr (snd p)) = Some (snd p)))
             (repeat sample_series 4)
   /\ Forall2 (fun n sr =>
                 four_written n
                 = Some (write_series (txt " ") exact_repr sr))
              names (repeat sample_series 4))
  /\ exists s,
       main (initial four_written) = (Ok tt, s)
       /\ xs s = map (map fst) (repeat sample_series 4)
       /\ ys s = map (map snd) (repeat sample_series 4)
       /\ shown s
          = [mk_figure
               (map (fun p => line_of (fst p) (snd p))
                    (combine (repeat sample_series 4) labels))
               (Some labels) (Some [0; 1; 2; 3; 4; 5; 6; 7]%Z)].
Proof.
  assert (Hr : Forall (Forall (fun p => token (exact_repr (snd p))
                 /\ float_of_text (exact_repr (snd p)) = Some (snd p)))
                 (repeat sample_series 4))
    by (cbn [repeat];
        repeat (apply Forall_cons; [exact sample_series_read_back|]);
        apply Forall_nil).
  split; [exact (conj space_inline (conj Hr four_written_files))|].
  exact (end_to_end four_written (txt " ") exact_repr (repeat sample_series 4)
           space_inline Hr four_written_files).
Defined.
